(** * Builder: a shallow embedding of [src/mod.ts]

    The class [Builder] of the build tool is modelled as state-passing
    functions over a [World] that holds the fields of the class, the
    JavaScript heap of option descriptors, the state of the operating
    system and the trace of what the process printed, spawned and sent.
    What comes from the runtime ([node:fs], [node:child_process],
    [node:path], [yargs], [ws], the console) is an interface; a POSIX
    instance of it is given for the concrete runs. *)

From Stdlib Require Import ZArith Lia Bool Ascii String DecimalString.
From stdpp Require Import gmap strings list.

Local Open Scope string_scope.
Local Open Scope Z_scope.

(** ** JavaScript strings *)

Module JsString.

(** The escape character written [\x1b] in the source. *)
Definition ESC : string := String (ascii_of_nat 27) EmptyString.

(** The double quote, written inside the template literals of the source. *)
Definition DQ : string := String (ascii_of_nat 34) EmptyString.

(** [s.startsWith(p)] *)
Definition startsWith (s p : string) : bool := String.prefix p s.

(** [s.slice(n)] for [0 <= n] *)
Definition slice (n : nat) (s : string) : string :=
  String.substring n (String.length s - n) s.

(** [GetSubstitution] of ECMA-262 for a pattern that is a string: there is
    no capture, so [$1], [$<] and a lone [$] stand for themselves, and the
    four patterns that remain are expanded. *)
Fixpoint GetSubstitution (matched before after template : string) : string :=
  match template with
  | EmptyString => EmptyString
  | String c rest =>
      if Ascii.eqb c "$" then
        match rest with
        | String d rest' =>
            if Ascii.eqb d "$" then
              String "$" (GetSubstitution matched before after rest')
            else if Ascii.eqb d "&" then
              matched ++ GetSubstitution matched before after rest'
            else if Ascii.eqb d "`" then
              before ++ GetSubstitution matched before after rest'
            else if Ascii.eqb d "'" then
              after ++ GetSubstitution matched before after rest'
            else String c (GetSubstitution matched before after rest)
        | EmptyString => String c EmptyString
        end
      else String c (GetSubstitution matched before after rest)
  end.

(** [s.replace(pattern, replacement)] with a string [pattern]: only the
    first occurrence is replaced, and the replacement is a template. *)
Definition replace (s pattern replacement : string) : string :=
  match String.index 0 pattern s with
  | None => s
  | Some pos =>
      let before := String.substring 0 pos s in
      let tail := (pos + String.length pattern)%nat in
      let after := String.substring tail (String.length s - tail) s in
      before ++ GetSubstitution pattern before after replacement ++ after
  end.

(** A replacement template is plain when none of [$$], [$&], [$`] and
    [$'] occurs in it. *)
Fixpoint plain_template (template : string) : bool :=
  match template with
  | EmptyString => true
  | String c rest =>
      (if Ascii.eqb c "$" then
         match rest with
         | String d _ =>
             negb (Ascii.eqb d "$" || Ascii.eqb d "&"
                   || Ascii.eqb d "`" || Ascii.eqb d "'")
         | EmptyString => true
         end
       else true) && plain_template rest
  end.

End JsString.

(** ** The [node:path] module *)

(** [path.join] and [path.extname] differ between platforms; the builder is
    written against the module, so it is an interface here. *)
Class PathModule := {
  path_join : list string -> string;
  path_extname : string -> string
}.

(** The POSIX flavour of [node:path], for the concrete runs. *)
Module Posix.

(** Split at every [/]. *)
Fixpoint split_slash (s : string) : list string :=
  match s with
  | EmptyString => [EmptyString]
  | String c rest =>
      if Ascii.eqb c "/" then EmptyString :: split_slash rest
      else match split_slash rest with
           | seg :: segs => String c seg :: segs
           | [] => [String c EmptyString]
           end
  end.

Fixpoint join_with (sep : string) (l : list string) : string :=
  match l with
  | [] => EmptyString
  | [x] => x
  | x :: l' => x ++ sep ++ join_with sep l'
  end.

(** One segment of [normalizeString]; [acc] is the result so far, last
    segment first. *)
Definition push_segment (allowAboveRoot : bool) (acc : list string)
    (seg : string) : list string :=
  if String.eqb seg "" || String.eqb seg "." then acc
  else if String.eqb seg ".." then
    match acc with
    | top :: acc' =>
        if String.eqb top ".." then seg :: acc else acc'
    | [] => if allowAboveRoot then [seg] else []
    end
  else seg :: acc.

Definition normalizeString (allowAboveRoot : bool) (p : string) : string :=
  join_with "/" (rev (fold_left (push_segment allowAboveRoot) (split_slash p) [])).

Definition ends_with_slash (p : string) : bool :=
  match rev (split_slash p) with
  | last_seg :: _ :: _ => String.eqb last_seg ""
  | _ => false
  end.

Definition normalize (p : string) : string :=
  if String.eqb p "" then "."
  else
    let isAbsolute := String.prefix "/" p in
    let trailing := ends_with_slash p in
    let body := normalizeString (negb isAbsolute) p in
    if String.eqb body "" then
      if isAbsolute then "/" else if trailing then "./" else "."
    else
      let body' := if trailing then body ++ "/" else body in
      if isAbsolute then "/" ++ body' else body'.

Definition join (paths : list string) : string :=
  match filter (fun p => p ≠ "") paths with
  | [] => "."
  | parts => normalize (join_with "/" parts)
  end.

(** Position of the last [.] of [s]. *)
Fixpoint last_dot (s : string) : option nat :=
  match s with
  | EmptyString => None
  | String c rest =>
      match last_dot rest with
      | Some i => Some (S i)
      | None => if Ascii.eqb c "." then Some O else None
      end
  end.

Definition extname (p : string) : string :=
  match filter (fun seg => seg ≠ "") (rev (split_slash p)) with
  | [] => ""
  | base :: _ =>
      if String.eqb base ".." then ""
      else match last_dot base with
           | None | Some O => ""
           | Some i => String.substring i (String.length base - i) base
           end
  end.

#[export] Instance posix : PathModule :=
  {| path_join := join; path_extname := extname |}.

End Posix.

(** ** JavaScript values, task handlers and the fields of [Builder] *)

Abbreviation loc := positive.

(** What a property of an object or a parsed argument can hold. *)
Inductive JsValue : Type :=
| JUndefined
| JBool (b : bool)
| JNum (z : Z)
| JStr (s : string)
| JRef (l : loc).

(** The truth value a condition gives to a value. *)
Definition truthy (v : JsValue) : bool :=
  match v with
  | JUndefined => false
  | JBool b => b
  | JNum z => negb (z =? 0)
  | JStr s => negb (String.eqb s "")
  | JRef _ => true
  end.

(** An object: its own enumerable properties. *)
Abbreviation JsObject := (gmap string JsValue).

(** [Record<string, unknown>], the parsed arguments handed to a handler. *)
Abbreviation Args := (gmap string JsValue).

(** [o.k], which is [undefined] for a property that is not there. *)
Definition get_prop (o : JsObject) (k : string) : JsValue :=
  default JUndefined (o !! k).

Inductive Severity := Info | Verbose | Warn | Error.

(** The body of a task handler, as far as the builder can tell: the calls it
    makes on the builder, the exceptions it throws and catches, and the
    number it returns. [TryCatch body onOk onErr] is
    [try { r = body } catch (e) { onErr e }] followed by [onOk r]. The
    number is an integer here, as the builder only asks whether it is below
    zero. A handler that registers tasks or options while it runs is not
    part of the model. *)
Inductive Prog : Type :=
| Return (v : Z)
| Throw (e : string)
| TryCatch (body : Prog) (onOk : Z -> Prog) (onErr : string -> Prog)
| CallRunTask (task : string) (args : Args) (k : Z -> Prog)
| CallRunCommand (command : string) (continueIfFailed : bool) (k : bool -> Prog)
| CallCompile (command source destination : string) (k : Prog)
| CallExCall (s : string) (ip : option string) (port : Z) (k : Prog)
| CallLog (sev : Severity) (data : string) (k : Prog)
| CallAllowExternal (k : Prog)
| CallFatal (data : string).

Definition TaskHandler := Args -> Prog.

Record Task := {
  name : string;
  description : string;
  handler : TaskHandler
}.

Record Builder := {
  shouldVerbose : bool;
  tasks : list Task;
  args : list loc;
  taskStack : list string;
  allowExternalCommands : bool
}.

(** [constructor()] *)
Definition new_Builder : Builder :=
  {| allowExternalCommands := false; shouldVerbose := false;
     tasks := []; taskStack := []; args := [] |}.

(** What the process does that can be seen from outside. *)
Inductive Event : Type :=
| Stdout (line : string)
| Stderr (line : string)
| Exec (command : string)
| WsListen (port : Z)
| WsConnect (url : string)
| WsSend (data : JsValue)
| WsClose.

(** ** The runtime *)

Inductive YargsResult : Type :=
| YCommand (i : nat) (argv : Args)
| YExit (code : Z).

(** The runtime the builder runs on, over a state [OS] of the machine.
    - [statSync_mtime os p] is [fs.statSync(p).mtime], [None] when the
      platform gives none;
    - [execSync os c] runs the shell command [c]; [false] is the exception
      thrown for a command that fails;
    - [WebSocket_new os url] is [Some e] when the constructor throws [e];
    - [yargs_parseSync argv commands options] is [YCommand i a] when the
      parser runs the callback registered by the [i]-th call of [command],
      on the parsed arguments [a], and [YExit c] when the parser ends the
      process itself (no command, unknown command, bad option). *)
Class NodeRuntime (OS : Type) := {
  existsSync : OS -> string -> bool;
  statSync_mtime : OS -> string -> option Z;
  execSync : OS -> string -> bool * OS;
  WebSocket_new : OS -> string -> option string * OS;
  yargs_parseSync :
    list string -> list (string * string) -> list (JsValue * JsObject) -> YargsResult
}.

(** ** The console *)

(** A format without [%]. *)
Fixpoint percent_free (s : string) : bool :=
  match s with
  | EmptyString => true
  | String c rest => negb (Ascii.eqb c "%") && percent_free rest
  end.

(** [console.log(format, data)] and [console.error(format, data)] take
    their first argument as a format: [console_format format data] is the
    line they print for one more argument, a string. Runtimes differ on
    what the specifiers stand for; they agree that a format without [%] is
    printed as it is, followed by a space and the argument. The calls with
    one argument print it as it is. *)
Class Console := {
  console_format : string -> string -> string;
  console_format_plain :
    forall format data,
      percent_free format = true ->
      console_format format data = (format ++ " " ++ data)%string
}.

Section BuilderModel.

Context {OS : Type} {RT : NodeRuntime OS} {PM : PathModule} {CO : Console}.

Record World := {
  self : Builder;
  heap : gmap loc JsObject;
  os : OS;
  listening : list Z;
  out : list Event
}.

Definition with_self (f : Builder -> Builder) (w : World) : World :=
  {| self := f (self w); heap := heap w; os := os w;
     listening := listening w; out := out w |}.

Definition with_os (o : OS) (w : World) : World :=
  {| self := self w; heap := heap w; os := o;
     listening := listening w; out := out w |}.

Definition emit (e : Event) (w : World) : World :=
  {| self := self w; heap := heap w; os := os w;
     listening := listening w; out := out w ++ [e] |}.

Definition emits (es : list Event) (w : World) : World :=
  {| self := self w; heap := heap w; os := os w;
     listening := listening w; out := out w ++ es |}.

Definition set_shouldVerbose (v : bool) (b : Builder) : Builder :=
  {| shouldVerbose := v; tasks := tasks b; args := args b;
     taskStack := taskStack b; allowExternalCommands := allowExternalCommands b |}.

Definition set_taskStack (s : list string) (b : Builder) : Builder :=
  {| shouldVerbose := shouldVerbose b; tasks := tasks b; args := args b;
     taskStack := s; allowExternalCommands := allowExternalCommands b |}.

(** How a call ends: it returns, it throws, the process exits, or the call
    depth allowed to nested tasks is used up. *)
Inductive Outcome (A : Type) : Type :=
| Returned (a : A) (w : World)
| Threw (e : string) (w : World)
| Exited (code : Z) (w : World)
| OutOfFuel.

Arguments Returned {A} a w.
Arguments Threw {A} e w.
Arguments Exited {A} code w.
Arguments OutOfFuel {A}.

Definition M (A : Type) : Type := World -> Outcome A.

Definition ret {A} (a : A) : M A := fun w => Returned a w.

Definition bind {A B} (c : M A) (k : A -> M B) : M B :=
  fun w =>
    match c w with
    | Returned a w' => k a w'
    | Threw e w' => Threw e w'
    | Exited code w' => Exited code w'
    | OutOfFuel => OutOfFuel
    end.

Notation "x <- c ;; k" := (bind c (fun x => k))
  (at level 100, c at next level, right associativity).
Notation "c ;; k" := (bind c (fun _ => k))
  (at level 100, right associativity).

(** The world an outcome leaves behind. *)
Definition world_of {A} (o : Outcome A) : option World :=
  match o with
  | Returned _ w | Threw _ w | Exited _ w => Some w
  | OutOfFuel => None
  end.

(** The shell commands of a trace, in the order they were run. *)
Definition execs (es : list Event) : list string :=
  omap (fun e => match e with Exec c => Some c | _ => None end) es.

(** The network activity of a trace. *)
Definition is_network (e : Event) : bool :=
  match e with
  | WsListen _ | WsConnect _ | WsSend _ | WsClose => true
  | _ => false
  end.

Definition network (es : list Event) : list Event := List.filter is_network es.

(** ** Logging *)

(** [this.taskStack.at(-1) ?? '*'] *)
Definition context (w : World) : string :=
  default "*" (last (taskStack (self w))).

(** The tag in front of every message: the severity in [style], then the
    task at the top of the stack. It is the first argument of the call of
    the console, and so the format of the line. *)
Definition tag (style label : string) (w : World) : string :=
  JsString.ESC ++ "[" ++ style ++ "m" ++ label ++ JsString.ESC ++ "[0m("
  ++ JsString.ESC ++ "[33m" ++ context w ++ JsString.ESC ++ "[0m):".

Definition info (data : string) : M unit :=
  fun w =>
    if shouldVerbose (self w)
    then Returned tt (emit (Stdout (console_format (tag "1" "INFO" w) data)) w)
    else Returned tt w.

Definition verbose (data : string) : M unit :=
  fun w =>
    if shouldVerbose (self w)
    then Returned tt (emit (Stdout (console_format (tag "1;92" "VERBOSE" w) data)) w)
    else Returned tt w.

Definition warn (data : string) : M unit :=
  fun w => Returned tt (emit (Stdout (console_format (tag "1;93" "VERBOSE" w) data)) w).

Definition error (data : string) : M unit :=
  fun w => Returned tt (emit (Stderr (console_format (tag "1;91" "ERROR" w) data)) w).

(** The lines of the stack dump of [fatal], for the reversed stack. *)
Definition stack_lines (st : list string) : list Event :=
  Stderr " Task stack:"
  :: imap (fun i t =>
             Stderr ("  - " ++ JsString.ESC ++ "["
                     ++ (if Nat.eqb i 0 then "91" else "37") ++ "m"
                     ++ t ++ JsString.ESC ++ "[0m")) st.

(** What [fatal] prints after its message. *)
Definition fatal_dump (w : World) : list Event :=
  if (0 <? length (taskStack (self w)))%nat && shouldVerbose (self w)
  then stack_lines (rev (taskStack (self w))) else [].

Definition fatal {A} (data : string) : M A :=
  fun w =>
    let w1 := emit (Stderr (console_format (tag "1;95" "FATAL" w) data)) w in
    if (0 <? length (taskStack (self w1)))%nat && shouldVerbose (self w1) then
      let st := rev (taskStack (self w1)) in
      Exited 1 (emits (stack_lines st) (with_self (set_taskStack st) w1))
    else Exited 1 w1.

Definition log (sev : Severity) : string -> M unit :=
  match sev with
  | Info => info | Verbose => verbose | Warn => warn | Error => error
  end.

(** ** Commands *)

Definition runCommand (command : string) (continueIfFailed : bool) : M bool :=
  verbose command ;;
  fun w =>
    let r := execSync (os w) command in
    let w' := with_os (snd r) (emit (Exec command) w) in
    if fst r then Returned true w'
    else if negb continueIfFailed then
      fatal ("Failed command " ++ JsString.ESC ++ "[32m" ++ command
             ++ JsString.ESC ++ "[0m") w'
    else Returned false w'.

(** [mtime?.getTime() ?? 0] *)
Definition getTime_or_0 (mtime : option Z) : Z := default 0 mtime.

Definition compile (command source destination : string) : M unit :=
  fun w =>
    if negb (existsSync (os w) source) then
      fatal (JsString.DQ ++ source ++ JsString.DQ
             ++ " doesn't exist, despite being used in "
             ++ JsString.ESC ++ "[94mcompile" ++ JsString.ESC ++ "[0m()") w
    else if negb (existsSync (os w) destination) then
      (runCommand command false ;; ret tt) w
    else
      let sourceMtime := statSync_mtime (os w) source in
      let destMtime := statSync_mtime (os w) destination in
      if negb (bool_decide (is_Some sourceMtime))
         || (getTime_or_0 destMtime <? getTime_or_0 sourceMtime)
      then (runCommand command false ;; ret tt) w
      else Returned tt w.

(** ** Remote commands *)

Definition allowExternal : M unit :=
  fun w =>
    Returned tt
      (with_self (fun b =>
         {| shouldVerbose := shouldVerbose b; tasks := tasks b; args := args b;
            taskStack := taskStack b; allowExternalCommands := true |}) w).

Definition show_number (z : Z) : string := NilZero.string_of_int (Z.to_int z).

(** The callback of [s.on('message', ...)]. *)
Definition server_on_message (msg : string) : M unit :=
  if JsString.startsWith msg "r::" then
    ok <- runCommand (JsString.slice 3 msg) true ;;
    fun w => Returned tt (emit (WsSend (JNum (if ok then 0 else 1))) w)
  else ret tt.

(** The callback of [server.on('listening', ...)]. *)
Definition server_on_listening (port : Z) : M unit :=
  verbose ("Server started on port :" ++ show_number port).

Definition startExServer (port : Z) : M unit :=
  fun w =>
    Returned tt
      {| self := self w; heap := heap w; os := os w;
         listening := port :: listening w; out := out w ++ [WsListen port] |}.

(** A message arrives on a connection to [port]: the callback installed by
    [startExServer] runs if there is one. *)
Definition deliver (port : Z) (msg : string) : M unit :=
  fun w =>
    if bool_decide (port ∈ listening w) then server_on_message msg w
    else Returned tt w.

Definition exCall (s : string) (ip : option string) (port : Z) : M unit :=
  fun w =>
    if negb (allowExternalCommands (self w)) then
      (runCommand s false ;; ret tt) w
    else
      let url := "ws://" ++ default "127.0.0.1" ip ++ ":" ++ show_number port in
      let r := WebSocket_new (os w) url in
      match fst r with
      | None => Returned tt (with_os (snd r) (emit (WsConnect url) w))
      | Some e =>
          Returned tt
            (emits [Stderr (JsString.ESC ++ "[90m[" ++ JsString.ESC ++ "[31m%"
                            ++ JsString.ESC ++ "[90m]" ++ JsString.ESC
                            ++ "[0m Failed to send");
                    Stderr e] (with_os (snd r) w))
      end.

(** The listeners [exCall] leaves on the socket. *)
Definition exCall_on_open (s : string) : M unit :=
  verbose ("excall " ++ s) ;;
  fun w => Returned tt (emits [WsSend (JStr ("r::" ++ s)); WsClose] w).

(** [status] is the number the remote end sent, as [ev.data != 0] reads it. *)
Definition exCall_on_message (s : string) (status : Z) : M unit :=
  if negb (status =? 0) then
    error ("Failed to run command " ++ JsString.ESC ++ "[32m" ++ JsString.DQ
           ++ s ++ JsString.DQ ++ JsString.ESC ++ "[0m") ;;
    fun w =>
      Returned tt
        (emit (Stdout (JsString.ESC ++ "[90m[" ++ JsString.ESC ++ "[31m%"
                       ++ JsString.ESC ++ "[90m]" ++ JsString.ESC
                       ++ "[0m Failure")) w)
  else ret tt.

Definition exCall_on_error (message : string) : M unit := fatal message.

(** ** Tasks *)

Definition addTask (name desc : string) (c : TaskHandler) : M unit :=
  fun w =>
    Returned tt
      (with_self (fun b =>
         {| shouldVerbose := shouldVerbose b;
            tasks := tasks b ++ [{| name := name; description := desc; handler := c |}];
            args := args b; taskStack := taskStack b;
            allowExternalCommands := allowExternalCommands b |}) w).

(** [this.taskStack.push(n)] and [this.taskStack.pop()] *)
Definition push (n : string) : M unit :=
  fun w => Returned tt (with_self (fun b => set_taskStack (taskStack b ++ [n]) b) w).

Definition pop : M unit :=
  fun w => Returned tt (with_self (fun b => set_taskStack (removelast (taskStack b)) b) w).

(** [runTask], given [run], the way the body of a handler is executed. *)
Definition runTask_with (run : Prog -> M Z) (task : string) (args : Args) : M Z :=
  fun w =>
    match List.find (fun v => String.eqb (name v) task) (tasks (self w)) with
    | None =>
        fatal ("Failed to run task " ++ JsString.DQ ++ task ++ JsString.DQ) w
    | Some t =>
        (verbose ("Starting task " ++ JsString.ESC ++ "[33m" ++ name t
                  ++ JsString.ESC ++ "[0m...") ;;
         push (name t) ;;
         resp <- run (handler t args) ;;
         pop ;;
         (if resp <? 0
          then error ("Failed task " ++ JsString.DQ ++ name t ++ JsString.DQ)
          else ret tt) ;;
         ret resp) w
    end.

(** The execution of the body of a handler. [depth] bounds how deep tasks
    may call tasks: a body that asks for more ends in [OutOfFuel]. *)
Fixpoint exec (depth : nat) : Prog -> M Z :=
  fix go (p : Prog) : M Z :=
    match p with
    | Return v => ret v
    | Throw e => fun w => Threw e w
    | TryCatch body onOk onErr =>
        fun w =>
          match go body w with
          | Returned v w' => go (onOk v) w'
          | Threw e w' => go (onErr e) w'
          | o => o
          end
    | CallRunTask task args k =>
        match depth with
        | O => fun _ => OutOfFuel
        | S d => resp <- runTask_with (exec d) task args ;; go (k resp)
        end
    | CallRunCommand command continueIfFailed k =>
        ok <- runCommand command continueIfFailed ;; go (k ok)
    | CallCompile command source destination k =>
        compile command source destination ;; go k
    | CallExCall s ip port k => exCall s ip port ;; go k
    | CallLog sev data k => log sev data ;; go k
    | CallAllowExternal k => allowExternal ;; go k
    | CallFatal data => fatal data
    end.

Definition runTask (depth : nat) : string -> Args -> M Z :=
  runTask_with (exec depth).

(** The worlds in which the body of a handler is itself at work, and could
    look at the stack: where it starts, and where it goes on after each of
    its calls has returned or, inside a [try], has thrown. What happens
    inside a task it runs belongs to that task. *)
Definition points (depth : nat) : Prog -> World -> list World :=
  fix go (p : Prog) (w : World) : list World :=
    w :: match p with
         | Return _ | Throw _ | CallFatal _ => []
         | TryCatch body onOk onErr =>
             go body w
             ++ match exec depth body w with
                | Returned v w' => go (onOk v) w'
                | Threw e w' => go (onErr e) w'
                | _ => []
                end
         | CallRunTask task args k =>
             match depth with
             | O => []
             | S d =>
                 match runTask_with (exec d) task args w with
                 | Returned resp w' => go (k resp) w'
                 | _ => []
                 end
             end
         | CallRunCommand command continueIfFailed k =>
             match runCommand command continueIfFailed w with
             | Returned ok w' => go (k ok) w'
             | _ => []
             end
         | CallCompile command source destination k =>
             match compile command source destination w with
             | Returned _ w' => go k w'
             | _ => []
             end
         | CallExCall s ip port k =>
             match exCall s ip port w with
             | Returned _ w' => go k w'
             | _ => []
             end
         | CallLog sev data k =>
             match log sev data w with
             | Returned _ w' => go k w'
             | _ => []
             end
         | CallAllowExternal k =>
             match allowExternal w with
             | Returned _ w' => go k w'
             | _ => []
             end
         end.

(** The world in which [runTask] starts the handler of [t]: the verbose
    line is out and the name is on the stack. *)
Definition enter (t : Task) (w : World) : World :=
  match (verbose ("Starting task " ++ JsString.ESC ++ "[33m" ++ name t
                  ++ JsString.ESC ++ "[0m...") ;; push (name t)) w with
  | Returned _ w' => w'
  | _ => w
  end.

(** What [runTask] does once the handler of [t] has returned [resp]. *)
Definition leave (t : Task) (resp : Z) : M Z :=
  pop ;;
  (if resp <? 0
   then error ("Failed task " ++ JsString.DQ ++ name t ++ JsString.DQ)
   else ret tt) ;;
  ret resp.

(** A body that never calls [runTask]. *)
Inductive task_free : Prog -> Prop :=
| tf_Return v : task_free (Return v)
| tf_Throw e : task_free (Throw e)
| tf_TryCatch body onOk onErr :
    task_free body -> (forall v, task_free (onOk v)) ->
    (forall e, task_free (onErr e)) -> task_free (TryCatch body onOk onErr)
| tf_RunCommand c b k :
    (forall ok, task_free (k ok)) -> task_free (CallRunCommand c b k)
| tf_Compile c s d k : task_free k -> task_free (CallCompile c s d k)
| tf_ExCall s ip port k : task_free k -> task_free (CallExCall s ip port k)
| tf_Log sev data k : task_free k -> task_free (CallLog sev data k)
| tf_AllowExternal k : task_free k -> task_free (CallAllowExternal k)
| tf_Fatal data : task_free (CallFatal data).

(** A body in which no [try] block encloses a call of [runTask]: an
    exception that leaves a task is never caught. *)
Inductive no_task_in_try : Prog -> Prop :=
| nt_Return v : no_task_in_try (Return v)
| nt_Throw e : no_task_in_try (Throw e)
| nt_TryCatch body onOk onErr :
    task_free body -> (forall v, no_task_in_try (onOk v)) ->
    (forall e, no_task_in_try (onErr e)) -> no_task_in_try (TryCatch body onOk onErr)
| nt_RunTask task args k :
    (forall resp, no_task_in_try (k resp)) -> no_task_in_try (CallRunTask task args k)
| nt_RunCommand c b k :
    (forall ok, no_task_in_try (k ok)) -> no_task_in_try (CallRunCommand c b k)
| nt_Compile c s d k : no_task_in_try k -> no_task_in_try (CallCompile c s d k)
| nt_ExCall s ip port k : no_task_in_try k -> no_task_in_try (CallExCall s ip port k)
| nt_Log sev data k : no_task_in_try k -> no_task_in_try (CallLog sev data k)
| nt_AllowExternal k : no_task_in_try k -> no_task_in_try (CallAllowExternal k)
| nt_Fatal data : no_task_in_try (CallFatal data).

(** Every handler of the registry is such a body, whatever its arguments. *)
Definition handlers_no_task_in_try (ts : list Task) : Prop :=
  Forall (fun t => forall a, no_task_in_try (handler t a)) ts.

(** ** Options *)

(** [Object.assign({}, a)]: a new object with the own properties of [a]. *)
Definition Object_assign_empty (a : loc) (h : gmap loc JsObject) : loc * gmap loc JsObject :=
  let l := fresh (dom h) in
  (l, <[l := default ∅ (h !! a)]> h).

Definition addArgument (a : loc) : M unit :=
  fun w =>
    let r := Object_assign_empty a (heap w) in
    Returned tt
      {| self := {| shouldVerbose := shouldVerbose (self w); tasks := tasks (self w);
                    args := args (self w) ++ [fst r];
                    taskStack := taskStack (self w);
                    allowExternalCommands := allowExternalCommands (self w) |};
         heap := snd r; os := os w; listening := listening w; out := out w |}.

(** What the caller of [addArgument] can do to its object afterwards:
    [a.k = v] and [delete a.k]. *)
Inductive Mutation : Type :=
| SetProp (k : string) (v : JsValue)
| DeleteProp (k : string).

Definition mutate (a : loc) (m : Mutation) (w : World) : World :=
  {| self := self w;
     heap := match heap w !! a with
             | Some o =>
                 <[a := match m with
                        | SetProp k v => <[k := v]> o
                        | DeleteProp k => delete k o
                        end]> (heap w)
             | None => heap w
             end;
     os := os w; listening := listening w; out := out w |}.

(** ** [begin] *)

(** The commands and the options [begin] declares to the parser. *)
Definition commands (w : World) : list (string * string) :=
  map (fun t => (name t, description t)) (tasks (self w)).

Definition options (w : World) : list (JsValue * JsObject) :=
  map (fun l => let o := default ∅ (heap w !! l) in (get_prop o "name", o))
      (args (self w)).

(** [if(args.v) this.shouldVerbose = true] *)
Definition apply_verbose (parsed : Args) (w : World) : World :=
  if truthy (get_prop parsed "v") then with_self (set_shouldVerbose true) w else w.

Definition begin (depth : nat) (argv : list string) : M unit :=
  fun w =>
    match yargs_parseSync argv (commands w) (options w) with
    | YExit code => Exited code w
    | YCommand i parsed =>
        let w1 := apply_verbose parsed w in
        match tasks (self w1) !! i with
        | None => Threw "TypeError" w1
        | Some t => (runTask depth (name t) parsed ;; ret tt) w1
        end
    end.

(** ** Files *)

Definition joinPath (paths : list string) : string := path_join paths.

Definition extension (f ext : string) : string :=
  JsString.replace f (path_extname f) ext.

(** What [fs.readdirSync(path, { withFileTypes: true })] gives, with, for a
    directory, what it gives for that directory in turn. *)
#[warnings="-register-all"]
Inductive Dirent : Type :=
| File (n : string)
| Dir (n : string) (entries : list Dirent).

Definition dirent_name (d : Dirent) : string :=
  match d with File n | Dir n _ => n end.

(** The test that makes the loop of [scanDir] skip a file. *)
Definition skipped (matches ignores : option (string -> bool)) (n : string) : bool :=
  match ignores with Some re => re n | None => false end
  || match matches with Some re => negb (re n) | None => false end.

(** One turn of the loop of [scanDir] over the listing of [path]: [file]
    is the entry at hand and [fnames] the array being built. *)
Fixpoint scanDir_step (path : string) (matches ignores : option (string -> bool))
    (file : Dirent) (fnames : list string) {struct file} : list string :=
  match file with
  | Dir n entries =>
      fnames ++ fold_left
                  (fun acc f => scanDir_step (joinPath [path; n]) matches ignores f acc)
                  entries []
  | File n =>
      if skipped matches ignores n then fnames
      else fnames ++ [joinPath [path; n]]
  end.

(** [scanDir(path, matches, ignores)] where [files] is the listing of
    [path]. *)
Definition scanDir (path : string) (matches ignores : option (string -> bool))
    (files : list Dirent) : list string :=
  fold_left (fun fnames file => scanDir_step path matches ignores file fnames) files [].

(** The registry and the stack are the same in both worlds. *)
Definition kept (w w' : World) : Prop :=
  tasks (self w') = tasks (self w) /\ taskStack (self w') = taskStack (self w).

(** A computation that, when it returns or throws, has left the registry
    and the stack as they were. *)
Definition stack_neutral {A} (c : M A) : Prop :=
  forall w, match c w with
            | Returned _ w' | Threw _ w' => kept w w'
            | _ => True
            end.

(** A computation that, in a registry whose handlers have no task in a
    [try], leaves the stack as it was when it returns, and the registry as
    it was also when it throws. *)
Definition balanced {A} (c : M A) : Prop :=
  forall w, handlers_no_task_in_try (tasks (self w)) ->
            match c w with
            | Returned _ w' => kept w w'
            | Threw _ w' => tasks (self w') = tasks (self w)
            | _ => True
            end.

(** The files of a listing as the description of [scanDir] has them: every
    entry that is not a directory, at any depth, in the order of the
    listings, given by the directories that lead to it and its name. *)
Fixpoint files_under (d : Dirent) : list (list string * string) :=
  match d with
  | File n => [([], n)]
  | Dir n entries =>
      map (fun e => (n :: fst e, snd e)) (flat_map files_under entries)
  end.

Definition listing (files : list Dirent) : list (list string * string) :=
  flat_map files_under files.

(** The path of such a file under [path]: the directories joined to [path]
    one after the other, then the name. *)
Definition joined (path : string) (e : list string * string) : string :=
  joinPath [fold_left (fun p d => joinPath [p; d]) (fst e) path; snd e].

(** The files the patterns let through. *)
Definition selected (matches ignores : option (string -> bool))
    (e : list string * string) : bool :=
  negb (skipped matches ignores (snd e)).

End BuilderModel.

Arguments World OS : clear implicits.
Arguments Outcome OS A : clear implicits.
Arguments Returned {OS A} a w.
Arguments Threw {OS A} e w.
Arguments Exited {OS A} code w.
Arguments OutOfFuel {OS A}.

(** ** A scripted runtime

    A machine small enough to run the builder on: the files that exist with
    their modification times, and the commands that fail. The parser takes
    the first word of the command line as the command and [-v] as the
    verbose flag. *)

Module ScriptedConsole.

(** A console that knows [%s] and [%%] and prints every other specifier as
    it is written. [pending] tells whether the argument is still to be
    used. *)
Fixpoint fill (format data : string) (pending : bool) : string * bool :=
  match format with
  | EmptyString => (EmptyString, pending)
  | String c rest =>
      if Ascii.eqb c "%" then
        match rest with
        | String d rest' =>
            if Ascii.eqb d "s" && pending then
              let r := fill rest' data false in ((data ++ fst r)%string, snd r)
            else if Ascii.eqb d "%" then
              let r := fill rest' data pending in (String "%" (fst r), snd r)
            else
              let r := fill rest data pending in (String c (fst r), snd r)
        | EmptyString => (String c EmptyString, pending)
        end
      else
        let r := fill rest data pending in (String c (fst r), snd r)
  end.

Definition format (fmt data : string) : string :=
  let r := fill fmt data true in
  if snd r then (fst r ++ " " ++ data)%string else fst r.

Lemma fill_plain (fmt data : string) (pending : bool) :
  percent_free fmt = true -> fill fmt data pending = (fmt, pending).
Proof.
  induction fmt as [|c rest IH]; [done|]. cbn [percent_free fill].
  intros [Hc Hrest]%andb_true_iff. apply negb_true_iff in Hc. rewrite Hc.
  by rewrite (IH Hrest).
Qed.

Lemma format_plain (fmt data : string) :
  percent_free fmt = true -> format fmt data = (fmt ++ " " ++ data)%string.
Proof. intros H. unfold format. by rewrite (fill_plain _ _ _ H). Qed.

#[export] Instance console : Console :=
  {| console_format := format; console_format_plain := format_plain |}.

End ScriptedConsole.

Module Scripted.

Record Machine := {
  files : list (string * option Z);
  failing : list string
}.

Definition lookup_file (m : Machine) (p : string) : option (option Z) :=
  snd <$> List.find (fun f => String.eqb (fst f) p) (files m).

Fixpoint last_index (c : string) (commands : list (string * string)) (i : nat)
    : option nat :=
  match commands with
  | [] => None
  | (n, _) :: rest =>
      match last_index c rest (S i) with
      | Some j => Some j
      | None => if String.eqb n c then Some i else None
      end
  end.

Definition parse (argv : list string) (commands : list (string * string))
    (options : list (JsValue * JsObject)) : YargsResult :=
  match argv with
  | [] => YExit 1
  | c :: flags =>
      match last_index c commands 0 with
      | None => YExit 1
      | Some i =>
          YCommand i
            (if existsb (String.eqb "-v") flags
             then {[ "v" := JBool true ]} else {[ "v" := JBool false ]})
      end
  end.

#[export] Instance runtime : NodeRuntime Machine := {|
  existsSync m p := bool_decide (is_Some (lookup_file m p));
  statSync_mtime m p := mjoin (lookup_file m p);
  execSync m c := (negb (existsb (String.eqb c) (failing m)), m);
  WebSocket_new m url := (None, m);
  yargs_parseSync := parse
|}.

(** A fresh builder on machine [m]. *)
Definition boot (m : Machine) : World Machine :=
  {| self := new_Builder; heap := ∅; os := m; listening := []; out := [] |}.

(** The world after the top-level calls [cs] of a build script. *)
Definition script (m : Machine) (cs : list (World Machine -> Outcome Machine unit))
    : World Machine :=
  fold_left (fun w c => match c w with Returned _ w' => w' | _ => w end) cs (boot m).

End Scripted.

(** ** Build scripts to run *)

Module Runs.

Import ScriptedConsole Scripted.

(** [a.c] is newer than [a.o], [b.c] is older than [b.o], [c.c] has no
    object file yet, and the platform gives no time for [d.c]. The command
    [false] fails, every other command succeeds. *)
Definition machine : Machine := {|
  files := [("a.c", Some 5); ("a.o", Some 3); ("b.c", Some 2); ("b.o", Some 4);
            ("c.c", Some 1); ("d.c", None); ("d.o", Some 9)];
  failing := ["false"]
|}.

(** [build] runs a command, [all] runs [build], [bad] fails. *)
Definition build_handler : TaskHandler :=
  fun _ => CallRunCommand "true" false (fun ok => Return (if ok then 0 else -1)).

Definition all_handler : TaskHandler :=
  fun a => CallRunTask "build" a (fun resp => Return resp).

Definition bad_handler : TaskHandler := fun _ => Return (-1).

Definition all_task : Task :=
  {| name := "all"; description := "Build everything"; handler := all_handler |}.
Definition build_task : Task :=
  {| name := "build"; description := "Build"; handler := build_handler |}.
Definition bad_task : Task :=
  {| name := "bad"; description := "Fail"; handler := bad_handler |}.

(** A second task named [build], registered last. *)
Definition shadowed_task : Task :=
  {| name := "build"; description := "Never run"; handler := bad_handler |}.

Definition project : World Machine :=
  script machine
    [addTask "all" "Build everything" all_handler;
     addTask "build" "Build" build_handler;
     addTask "bad" "Fail" bad_handler;
     addTask "build" "Never run" bad_handler].

(** A task that runs another inside a [try] block, and the other, which
    throws:
    [addTask('outer', '', () => { try { b.runTask('inner', {}) } catch {} return 0 })],
    [addTask('inner', '', () => { throw 'boom' })]. *)
Definition outer_handler : TaskHandler :=
  fun _ => TryCatch (CallRunTask "inner" ∅ (fun resp => Return resp))
                    (fun _ => Return 0) (fun _ => Return 0).

Definition inner_handler : TaskHandler := fun _ => Throw "boom".

Definition outer_task : Task :=
  {| name := "outer"; description := ""; handler := outer_handler |}.

Definition catching : World Machine :=
  script machine [addTask "outer" "" outer_handler; addTask "inner" "" inner_handler].

(** The caller's descriptor [{ name: 'name', requiresArg: true }], at
    location [1]. *)
Definition descriptor : JsObject :=
  {[ "name" := JStr "name"; "requiresArg" := JBool true ]}.

Definition with_descriptor : World Machine :=
  {| self := new_Builder; heap := {[ 1%positive := descriptor ]}; os := machine;
     listening := []; out := [] |}.

(** The pattern [/\.txt$/]. *)
Definition dot_txt (n : string) : bool :=
  String.eqb (JsString.slice (String.length n - 4) n) ".txt"
  && (4 <=? String.length n)%nat.

(** The files [a.txt], [b.log] and [sub/c.txt]. *)
Definition tree : list Dirent :=
  [File "a.txt"; File "b.log"; Dir "sub" [File "c.txt"]].

(** The world in which the handler of [build] returns, when it was
    started by [runTask] in [project]. *)
Definition after_build : World Machine :=
  default project
    (world_of (exec 0 (handler build_task ∅) (enter build_task project))).

End Runs.

(** ** The rest of the class: files, directories, assertions, the server loop *)

(** The calls of [node:fs] that change the disk. Each gives [Some e] when
    it throws [e], and the state of the machine afterwards.
    [rmdirSync] is the call with [{ recursive: true }], and so is
    [mkdirSync]; [isDirectory os p] is [fs.statSync(p).isDirectory()]. *)
Class NodeFs (OS : Type) := {
  copyFileSync : OS -> string -> string -> option string * OS;
  isDirectory : OS -> string -> bool;
  rmdirSync : OS -> string -> option string * OS;
  rmSync : OS -> string -> option string * OS;
  mkdirSync : OS -> string -> option string * OS
}.

Section BuilderRest.

Context {OS : Type} {RT : NodeRuntime OS} {FS : NodeFs OS} {CO : Console}.

Notation "x <- c ;; k" := (bind c (fun x => k))
  (at level 100, c at next level, right associativity).
Notation "c ;; k" := (bind c (fun _ => k))
  (at level 100, right associativity).

(** A call of [node:fs] made outside any [try]: what it throws goes on to
    the caller. *)
Definition fs_call (r : option string * OS) : M (OS:=OS) unit :=
  fun w =>
    match fst r with
    | Some e => Threw e (with_os (snd r) w)
    | None => Returned tt (with_os (snd r) w)
    end.

Definition assert (cond : bool) (error : string) : M (OS:=OS) unit :=
  if negb cond then fatal error else ret tt.

Definition copy (source dest : string) : M (OS:=OS) bool :=
  fun w =>
    if negb (existsSync (os w) source) then Returned false w
    else
      let r := copyFileSync (os w) source dest in
      match fst r with
      | Some e => (warn e ;; ret false) (with_os (snd r) w)
      | None => Returned true (with_os (snd r) w)
      end.

Definition remove (path : string) : M (OS:=OS) unit :=
  fun w =>
    if existsSync (os w) path then
      (verbose ("Removing " ++ JsString.ESC ++ "[32m" ++ path ++ JsString.ESC ++ "[0m") ;;
       fun w' =>
         if isDirectory (os w') path
         then fs_call (rmdirSync (os w') path) w'
         else fs_call (rmSync (os w') path) w') w
    else Returned tt w.

Definition createDirectory (path : string) (shouldCreate : bool) : M (OS:=OS) unit :=
  fun w =>
    if negb shouldCreate then Returned tt w
    else if negb (existsSync (os w) path) then
      (verbose ("Creating " ++ JsString.ESC ++ "[32m" ++ path ++ JsString.ESC ++ "[0m") ;;
       fun w' => fs_call (mkdirSync (os w') path) w') w
    else Returned tt w.

(** The messages that reach a server one after the other: the callback
    runs to its end on each before the next is taken. *)
Fixpoint serve (port : Z) (msgs : list string) : M (OS:=OS) unit :=
  match msgs with
  | [] => ret tt
  | msg :: rest => deliver port msg ;; serve port rest
  end.

End BuilderRest.

(** ** A scripted disk *)

Module ScriptedFs.

(** The paths that exist, each a directory or not. Below a directory are
    the paths that start with its name and a slash. *)
Record Disk := { entries : list (string * bool) }.

Definition lookup (d : Disk) (p : string) : option bool :=
  snd <$> List.find (fun e => String.eqb (fst e) p) (entries d).

Definition without (p : string) (d : Disk) : Disk :=
  {| entries := List.filter (fun e => negb (String.eqb (fst e) p)
                                      && negb (String.prefix (p ++ "/") (fst e)))
                            (entries d) |}.

#[export] Instance runtime : NodeRuntime Disk := {|
  existsSync d p := bool_decide (is_Some (lookup d p));
  statSync_mtime d p := None;
  execSync d c := (true, d);
  WebSocket_new d url := (None, d);
  yargs_parseSync := Scripted.parse
|}.

#[export] Instance fs : NodeFs Disk := {|
  copyFileSync d src dst :=
    match lookup d src with
    | Some false => (None, {| entries := (dst, false) :: entries (without dst d) |})
    | Some true => (Some "EISDIR", d)
    | None => (Some "ENOENT", d)
    end;
  isDirectory d p := default false (lookup d p);
  rmdirSync d p := (None, without p d);
  rmSync d p :=
    match lookup d p with
    | Some false => (None, without p d)
    | Some true => (Some "EISDIR", d)
    | None => (Some "ENOENT", d)
    end;
  mkdirSync d p := (None, {| entries := (p, true) :: entries d |})
|}.

(** A source file, a directory with an object file in it. *)
Definition disk : Disk :=
  {| entries := [("main.c", false); ("build", true); ("build/main.o", false)] |}.

Definition boot (d : Disk) : World Disk :=
  {| self := new_Builder; heap := ∅; os := d; listening := []; out := [] |}.

End ScriptedFs.

(** ** More build scripts to run *)

Module MoreRuns.

Import ScriptedConsole Scripted Runs.

(** [project] after [bad] has run and failed. *)
Definition after_bad : World Machine :=
  default project (world_of (runTask 0 "bad" ∅ project)).

(** [project] with a third task registered under the name [build]. *)
Definition reregistered : World Machine :=
  default project (world_of (addTask "build" "Again" bad_handler project)).

(** A fresh builder after [runCommand('true')]. *)
Definition after_true : World Machine :=
  default (boot machine) (world_of (runCommand "true" false (boot machine))).

(** A machine whose clock is coarse: [e.c] and [e.o] carry the same time;
    and [f.o] carries none. *)
Definition coarse : Machine := {|
  files := [("e.c", Some 7); ("e.o", Some 7); ("f.c", Some 7); ("f.o", None)];
  failing := []
|}.

(** A builder with a server on port 8086. *)
Definition served : World Machine :=
  default (boot machine) (world_of (startExServer 8086 (boot machine))).

(** A builder that has registered the descriptor at location [1]. *)
Definition registered : World Machine :=
  default with_descriptor (world_of (addArgument 1%positive with_descriptor)).

End MoreRuns.

(** * Properties *)

Section BuilderTheorems.

Context {OS : Type} {RT : NodeRuntime OS} {PM : PathModule} {CO : Console}.

Notation "x <- c ;; k" := (bind c (fun x => k))
  (at level 100, c at next level, right associativity).
Notation "c ;; k" := (bind c (fun _ => k))
  (at level 100, right associativity).

Implicit Types (w : World OS).

Local Open Scope list_scope.

(** ** The trace *)

Lemma execs_app (es es' : list Event) : execs (es ++ es') = execs es ++ execs es'.
Proof. unfold execs. apply omap_app. Qed.

Lemma omap_imap_None {A B C} (g : B -> option C) (l : list A) :
  forall f : nat -> A -> B, (forall i x, g (f i x) = None) -> omap g (imap f l) = [].
Proof.
  induction l as [|x l IH]; intros f Hf; cbn; [done|].
  rewrite Hf. apply IH. intros i y. apply Hf.
Qed.

Lemma filter_imap_false {A B} (g : B -> bool) (l : list A) :
  forall f : nat -> A -> B, (forall i x, g (f i x) = false) -> List.filter g (imap f l) = [].
Proof.
  induction l as [|x l IH]; intros f Hf; cbn; [done|].
  rewrite Hf. apply IH. intros i y. apply Hf.
Qed.

Lemma execs_stack_lines (st : list string) : execs (stack_lines st) = [].
Proof. unfold stack_lines, execs. cbn. by apply omap_imap_None. Qed.

Lemma network_app (es es' : list Event) : network (es ++ es') = network es ++ network es'.
Proof. apply List.filter_app. Qed.

Lemma network_stack_lines (st : list string) : network (stack_lines st) = [].
Proof. unfold network, stack_lines. cbn. by apply filter_imap_false. Qed.

Lemma execs_fatal_dump w : execs (fatal_dump w) = [].
Proof. unfold fatal_dump. case_match; [apply execs_stack_lines | done]. Qed.

Lemma network_fatal_dump w : network (fatal_dump w) = [].
Proof. unfold fatal_dump. case_match; [apply network_stack_lines | done]. Qed.

Ltac trace_solve :=
  rewrite ?execs_app, ?network_app, ?execs_fatal_dump, ?network_fatal_dump;
  repeat case_match; repeat split; try done.

(** [fatal] prints its message, tagged with the task at hand, dumps the
    stack when asked to be verbose, and ends the process with status 1. *)
Lemma fatal_exits (A : Type) (data : string) w :
  exists w', fatal (A:=A) data w = Exited 1 w'
    /\ out w' = out w ++ [Stderr (console_format (tag "1;95" "FATAL" w) data)] ++ fatal_dump w
    /\ os w' = os w /\ heap w' = heap w /\ listening w' = listening w
    /\ tasks (self w') = tasks (self w).
Proof.
  unfold fatal, fatal_dump. cbn [self emit with_self out].
  destruct ((0 <? length (taskStack (self w)))%nat && shouldVerbose (self w)).
  - eexists; split; [reflexivity|]. cbn. rewrite <- app_assoc. done.
  - eexists; split; [reflexivity|]. cbn. done.
Qed.

Lemma context_self w w' : self w' = self w -> context w' = context w.
Proof. unfold context. by intros ->. Qed.

Lemma tag_self (style label : string) w w' :
  self w' = self w -> tag style label w' = tag style label w.
Proof. intros H. unfold tag. by rewrite (context_self _ _ H). Qed.

Lemma fatal_dump_self w w' : self w' = self w -> fatal_dump w' = fatal_dump w.
Proof. unfold fatal_dump. by intros ->. Qed.

(** [verbose] only prints, and only when asked to. *)
Lemma verbose_returns (data : string) w :
  exists w', verbose data w = Returned tt w'
    /\ self w' = self w /\ os w' = os w /\ heap w' = heap w
    /\ listening w' = listening w
    /\ out w' = out w ++ (if shouldVerbose (self w)
                          then [Stdout (console_format (tag "1;92" "VERBOSE" w) data)]
                          else []).
Proof.
  unfold verbose. destruct (shouldVerbose (self w)).
  - eexists; split; [reflexivity|]. done.
  - eexists; split; [reflexivity|]. by rewrite app_nil_r.
Qed.

(** ** [runCommand] *)

Lemma runCommand_cases (command : string) (continueIfFailed : bool) w :
  exists w' es,
    runCommand command continueIfFailed w =
      (if fst (execSync (os w) command) then Returned true w'
       else if continueIfFailed then Returned false w'
       else Exited 1 w')
    /\ out w' = out w ++ es
    /\ execs es = [command]
    /\ network es = []
    /\ os w' = snd (execSync (os w) command)
    /\ (if fst (execSync (os w) command) || continueIfFailed then self w' = self w
        else Stderr (console_format (tag "1;95" "FATAL" w) ("Failed command "
                     ++ JsString.ESC ++ "[32m" ++ command ++ JsString.ESC ++ "[0m"))
             ∈ es)
    /\ heap w' = heap w /\ listening w' = listening w
    /\ tasks (self w') = tasks (self w).
Proof.
  unfold runCommand, bind.
  destruct (verbose_returns command w) as (w1 & -> & Hs & Ho & Hh & Hl & Hout).
  rewrite Ho. destruct (execSync (os w) command) as [ok os'] eqn:E. cbn [fst snd].
  destruct ok; [|destruct continueIfFailed]; cbn [negb orb].
  - eexists _, _. split; [reflexivity|]. cbn. rewrite Hout, <- app_assoc, Hs, Hh, Hl.
    split; [reflexivity|]. by trace_solve.
  - eexists _, _. split; [reflexivity|]. cbn. rewrite Hout, <- app_assoc, Hs, Hh, Hl.
    split; [reflexivity|]. by trace_solve.
  - match goal with |- context [fatal ?d ?x] =>
      destruct (fatal_exits bool d x) as (w2 & -> & Hout2 & Ho2 & Hh2 & Hl2 & Ht2) end.
    eexists _, _. split; [reflexivity|]. rewrite Hout2, Hh2, Hl2, Ht2.
    cbn [out emit with_os heap listening self].
    rewrite Hout, <- !app_assoc, Hs, Hh, Hl. split; [reflexivity|].
    unfold tag, context. cbn [self with_os emit]. rewrite Hs.
    split; [by trace_solve|]. split; [by trace_solve|]. split; [done|].
    split; [set_solver|done].
Qed.

(** C8. [runCommand] runs the command once. It returns [true] when the
    command succeeds; when the command fails it returns [false] if
    [continueIfFailed] is set, and otherwise prints the fatal message and
    ends the process with status 1. *)
Theorem runCommand_outcome (command : string) (continueIfFailed : bool) w :
  exists w' es,
    runCommand command continueIfFailed w =
      (if fst (execSync (os w) command) then Returned true w'
       else if continueIfFailed then Returned false w'
       else Exited 1 w')
    /\ out w' = out w ++ es
    /\ execs es = [command]
    /\ os w' = snd (execSync (os w) command)
    /\ (if fst (execSync (os w) command) || continueIfFailed then True
        else Stderr (console_format (tag "1;95" "FATAL" w) ("Failed command "
                     ++ JsString.ESC ++ "[32m" ++ command ++ JsString.ESC ++ "[0m"))
             ∈ es).
Proof.
  destruct (runCommand_cases command continueIfFailed w)
    as (w' & es & Hrun & Hout & Hex & _ & Hos & Hfatal & _).
  exists w', es. repeat split; try done.
  by destruct (fst (execSync (os w) command) || continueIfFailed).
Qed.

(** ** [compile] *)

(** C4. [compile] ends the process on the fatal message, without running
    the command, when the source is missing; it runs the command when the
    destination is missing; with both there, it runs the command exactly
    when the source has no modification time or one later than that of the
    destination (a destination without a modification time counts as the
    epoch), and does nothing otherwise. *)
Theorem compile_runs_when_stale (command source destination : string) w :
  exists w' es,
    world_of (compile command source destination w) = Some w'
    /\ out w' = out w ++ es
    /\ (existsSync (os w) source = false ->
          compile command source destination w = Exited 1 w'
          /\ execs es = [] /\ os w' = os w
          /\ exists line, es = [Stderr (console_format (tag "1;95" "FATAL" w) line)] ++ fatal_dump w)
    /\ (existsSync (os w) source = true ->
          existsSync (os w) destination = false ->
          execs es = [command])
    /\ (existsSync (os w) source = true ->
          existsSync (os w) destination = true ->
          forall src dst,
            statSync_mtime (os w) source = src ->
            statSync_mtime (os w) destination = dst ->
            (src = None \/ (exists s, src = Some s /\ getTime_or_0 dst < s) ->
               execs es = [command])
            /\ (~ (src = None \/ (exists s, src = Some s /\ getTime_or_0 dst < s)) ->
                 es = [] /\ compile command source destination w = Returned tt w)).
Proof.
  unfold compile.
  destruct (existsSync (os w) source) eqn:Hsrc; cbn [negb].
  2:{ match goal with |- context [fatal ?d ?x] =>
        destruct (fatal_exits unit d x) as (w2 & -> & Hout2 & Ho2 & _) end.
      exists w2; eexists. split; [done|]. split; [exact Hout2|].
      split; [|done]. intros _. split; [done|]. split; [by trace_solve|].
      split; [done|]. by eexists. }
  assert (Hrun : exists w' es,
             world_of ((runCommand command false ;; ret tt) w) = Some w'
             /\ out w' = out w ++ es /\ execs es = [command]).
  { unfold bind, ret.
    destruct (runCommand_cases command false w) as (w' & es & -> & Hout & Hex & _).
    exists w', es. by destruct (fst (execSync (os w) command)). }
  destruct (existsSync (os w) destination) eqn:Hdst; cbn [negb].
  2:{ destruct Hrun as (w' & es & Hw & Hout & Hex). exists w', es. done. }
  destruct (statSync_mtime (os w) source) as [s|] eqn:Hs.
  - change (getTime_or_0 (Some s)) with s.
    rewrite bool_decide_eq_true_2 by eauto. cbn [negb orb].
    destruct (getTime_or_0 (statSync_mtime (os w) destination) <? s) eqn:Hlt.
    + destruct Hrun as (w' & es & Hw & Hout & Hex). exists w', es.
      apply Z.ltb_lt in Hlt.
      split; [done|]. split; [done|]. split; [done|]. split; [done|].
      intros _ _ src dst <- <-. split; [done|]. intros []. right. eauto.
    + exists w, []. apply Z.ltb_ge in Hlt. rewrite app_nil_r.
      split; [done|]. split; [done|]. split; [done|]. split; [done|].
      intros _ _ src dst <- <-.
      split; [|done]. intros [? | (s' & [= <-] & ?)]; [done|lia].
  - destruct Hrun as (w' & es & Hw & Hout & Hex). exists w', es.
    rewrite bool_decide_eq_false_2 by (intros [? ?]; done). cbn [negb orb].
    split; [done|]. split; [done|]. split; [done|]. split; [done|].
    intros _ _ src dst <- <-. split; [done|]. intros []. by left.
Qed.

(** ** Remote commands *)

Lemma substring_all (s : string) : String.substring 0 (String.length s) s = s.
Proof. induction s as [|c s IH]; cbn; [done|]. by rewrite IH. Qed.

Lemma slice_request (cmd : string) : JsString.slice 3 ("r::" ++ cmd) = cmd.
Proof.
  unfold JsString.slice.
  change ("r::" ++ cmd)%string with (String "r" (String ":" (String ":" cmd))).
  cbn. rewrite ?Nat.sub_0_r. apply substring_all.
Qed.

Lemma startsWith_request (cmd : string) : JsString.startsWith ("r::" ++ cmd) "r::" = true.
Proof.
  unfold JsString.startsWith.
  change ("r::" ++ cmd)%string with (String "r" (String ":" (String ":" cmd))).
  cbn. by destruct cmd.
Qed.

(** C5. Once [startExServer] has run for a port, a message [r::cmd] that
    arrives there makes the server run [cmd] and send [0] when it succeeds
    and [1] when it fails, the callback returning in both cases; a message
    without the prefix leaves the world as it is. *)
Theorem server_replies (port : Z) w0 :
  exists w1,
    startExServer port w0 = Returned tt w1
    /\ port ∈ listening w1
    /\ forall w, port ∈ listening w ->
         (forall cmd, exists w' es,
             deliver port ("r::" ++ cmd) w = Returned tt w'
             /\ out w' = out w ++ es
             /\ execs es = [cmd]
             /\ network es =
                  [WsSend (JNum (if fst (execSync (os w) cmd) then 0 else 1))])
         /\ (forall msg, JsString.startsWith msg "r::" = false ->
                deliver port msg w = Returned tt w).
Proof.
  eexists. split; [reflexivity|]. split; [cbn; set_solver|].
  intros w Hport. unfold deliver. rewrite bool_decide_eq_true_2 by done.
  unfold server_on_message. split.
  - intros cmd. rewrite startsWith_request, slice_request. unfold bind.
    destruct (runCommand_cases cmd true w)
      as (w' & es & -> & Hout & Hex & Hnet & _).
    destruct (fst (execSync (os w) cmd)).
    + eexists _, (es ++ [_]). split; [reflexivity|]. cbn.
      rewrite Hout, <- app_assoc, execs_app, network_app, Hex, Hnet. done.
    + eexists _, (es ++ [_]). split; [reflexivity|]. cbn.
      rewrite Hout, <- app_assoc, execs_app, network_app, Hex, Hnet. done.
  - intros msg ->. done.
Qed.

(** A builder starts with remote commands off, and registering tasks and
    options leaves them off. *)
Lemma registration_stays_local w :
  allowExternalCommands new_Builder = false
  /\ (forall n d c w', addTask n d c w = Returned tt w' ->
        allowExternalCommands (self w') = allowExternalCommands (self w))
  /\ (forall a w', addArgument a w = Returned tt w' ->
        allowExternalCommands (self w') = allowExternalCommands (self w)).
Proof.
  split; [done|]. split.
  - intros n d c w' [= <-]. done.
  - intros a w' [= <-]. done.
Qed.

(** C6 as the code has it. While [allowExternal] has not been called,
    [exCall] is [runCommand] on the same command: it runs the command on
    this machine and opens no connection; it returns when the command
    succeeds and ends the process with status 1 when the command fails. *)
Theorem exCall_local (s : string) (ip : option string) (port : Z) w :
  allowExternalCommands (self w) = false ->
  exists w' es,
    exCall s ip port w =
      (if fst (execSync (os w) s) then Returned tt w' else Exited 1 w')
    /\ out w' = out w ++ es
    /\ execs es = [s]
    /\ network es = [].
Proof.
  intros Hflag. unfold exCall. rewrite Hflag. cbn [negb]. unfold bind, ret.
  destruct (runCommand_cases s false w) as (w' & es & -> & Hout & Hex & Hnet & _).
  exists w', es. by destruct (fst (execSync (os w) s)).
Qed.

(** ** Tasks *)

Lemma find_first (ts pre post : list Task) (t : Task) :
  ts = pre ++ t :: post -> Forall (fun u => name u <> name t) pre ->
  List.find (fun v => String.eqb (name v) (name t)) ts = Some t.
Proof.
  intros -> Hpre. induction Hpre as [|u pre Hu _ IH]; cbn.
  - by rewrite String.eqb_refl.
  - apply String.eqb_neq in Hu. by rewrite Hu.
Qed.

Lemma find_unknown (ts : list Task) (task : string) :
  Forall (fun u => name u <> task) ts ->
  List.find (fun v => String.eqb (name v) task) ts = None.
Proof.
  induction 1 as [|u ts Hu _ IH]; cbn; [done|].
  apply String.eqb_neq in Hu. by rewrite Hu.
Qed.

Lemma find_named (ts : list Task) (task : string) (t : Task) :
  List.find (fun v => String.eqb (name v) task) ts = Some t ->
  In t ts /\ name t = task.
Proof.
  intros H. apply List.find_some in H as [Hin Heq].
  split; [done|]. by apply String.eqb_eq.
Qed.

Lemma enter_self (t : Task) w :
  self (enter t w) = set_taskStack (taskStack (self w) ++ [name t]) (self w).
Proof. unfold enter, bind, verbose, push. by destruct (shouldVerbose (self w)). Qed.

Lemma enter_taskStack (t : Task) w :
  taskStack (self (enter t w)) = taskStack (self w) ++ [name t].
Proof. by rewrite enter_self. Qed.

(** Once the task is found, [runTask] is the handler run from [enter]
    and followed by [leave]. *)
Lemma runTask_with_found (run : Prog -> M Z) (task : string) (args : Args) w (t : Task) :
  List.find (fun v => String.eqb (name v) task) (tasks (self w)) = Some t ->
  runTask_with run task args w =
  (resp <- run (handler t args) ;; leave t resp) (enter t w).
Proof.
  intros Hfind. unfold runTask_with, enter, leave. rewrite Hfind.
  unfold bind, verbose, push. by destruct (shouldVerbose (self w)).
Qed.

Lemma leave_returns (t : Task) (resp : Z) w :
  exists w', leave t resp w = Returned resp w'
    /\ self w' = set_taskStack (removelast (taskStack (self w))) (self w)
    /\ out w' = out w ++ (if resp <? 0
                          then [Stderr (console_format (tag "1;91" "ERROR" w') ("Failed task "
                                        ++ JsString.DQ ++ name t ++ JsString.DQ))]
                          else [])
    /\ os w' = os w /\ heap w' = heap w /\ listening w' = listening w.
Proof.
  unfold leave, bind, pop, error, ret. destruct (resp <? 0).
  - eexists. split; [reflexivity|]. done.
  - eexists. split; [reflexivity|]. cbn. by rewrite app_nil_r.
Qed.

(** C1. When a task is registered under a name, [runTask] on that name
    starts the handler of the first such task, on the arguments it was
    given and with the name pushed; when that run returns [v], [runTask]
    pops the stack, prints the error line if [v] is negative, and returns
    [v]. It holds however handlers are run, so [runTask] asks for one run of
    that handler and no other. *)
Theorem runTask_first_handler (run : Prog -> M Z) w
    (pre post : list Task) (t : Task) (args : Args) (v : Z) (w1 : World OS) :
  tasks (self w) = pre ++ t :: post ->
  Forall (fun u => name u <> name t) pre ->
  run (handler t args) (enter t w) = Returned v w1 ->
  taskStack (self (enter t w)) = taskStack (self w) ++ [name t]
  /\ exists w2,
      runTask_with run (name t) args w = Returned v w2
      /\ self w2 = set_taskStack (removelast (taskStack (self w1))) (self w1)
      /\ out w2 = out w1 ++ (if v <? 0
                             then [Stderr (console_format (tag "1;91" "ERROR" w2) ("Failed task "
                                           ++ JsString.DQ ++ name t ++ JsString.DQ))]
                             else [])
      /\ os w2 = os w1 /\ heap w2 = heap w1.
Proof.
  intros Hts Hpre Hrun. split; [apply enter_taskStack|].
  rewrite (runTask_with_found run (name t) args w t) by eauto using find_first.
  unfold bind. rewrite Hrun.
  destruct (leave_returns t v w1) as (w2 & -> & Hs & Hout & Hos & Hh & _).
  by exists w2.
Qed.

(** C2. When no task is registered under a name, [runTask] on that name
    prints the fatal message and ends the process with status 1; it does
    not return. *)
Theorem runTask_unknown_exits (run : Prog -> M Z) w (task : string) (args : Args) :
  Forall (fun u => name u <> task) (tasks (self w)) ->
  exists w',
    runTask_with run task args w = Exited 1 w'
    /\ out w' = out w ++ [Stderr (console_format (tag "1;95" "FATAL" w) ("Failed to run task "
                                  ++ JsString.DQ ++ task ++ JsString.DQ))]
                      ++ fatal_dump w.
Proof.
  intros Hts. unfold runTask_with. rewrite (find_unknown _ _ Hts).
  match goal with |- context [fatal ?d ?x] =>
    destruct (fatal_exits Z d x) as (w' & -> & Hout & _) end.
  by exists w'.
Qed.

(** ** The task stack *)

Lemma exec_eq (depth : nat) (p : Prog) :
  exec depth p =
  match p with
  | Return v => ret v
  | Throw e => fun w => Threw e w
  | TryCatch body onOk onErr =>
      fun w =>
        match exec depth body w with
        | Returned v w' => exec depth (onOk v) w'
        | Threw e w' => exec depth (onErr e) w'
        | o => o
        end
  | CallRunTask task args k =>
      match depth with
      | O => fun _ => OutOfFuel
      | S d => resp <- runTask_with (exec d) task args ;; exec depth (k resp)
      end
  | CallRunCommand command continueIfFailed k =>
      ok <- runCommand command continueIfFailed ;; exec depth (k ok)
  | CallCompile command source destination k =>
      compile command source destination ;; exec depth k
  | CallExCall s ip port k => exCall s ip port ;; exec depth k
  | CallLog sev data k => log sev data ;; exec depth k
  | CallAllowExternal k => allowExternal ;; exec depth k
  | CallFatal data => fatal data
  end.
Proof. destruct depth, p; reflexivity. Qed.

Lemma kept_refl w : kept w w.
Proof. done. Qed.

Lemma kept_trans w1 w2 w3 : kept w1 w2 -> kept w2 w3 -> kept w1 w3.
Proof. unfold kept. intros [-> ->] [-> ->]. done. Qed.

Lemma kept_self w w' : self w' = self w -> kept w w'.
Proof. unfold kept. by intros ->. Qed.

Lemma stack_neutral_ret {A} (a : A) : stack_neutral (OS:=OS) (ret a).
Proof. intros w. apply kept_refl. Qed.

Lemma stack_neutral_bind {A B} (c : M (OS:=OS) A) (k : A -> M (OS:=OS) B) :
  stack_neutral c -> (forall a, stack_neutral (OS:=OS) (k a)) -> stack_neutral (OS:=OS) (c' <- c ;; k c').
Proof.
  intros Hc Hk w. unfold bind. specialize (Hc w).
  destruct (c w) as [a w'| | |]; try done.
  specialize (Hk a w'). destruct (k a w'); eauto using kept_trans.
Qed.

Lemma stack_neutral_fatal {A} (data : string) : stack_neutral (OS:=OS) (fatal (OS:=OS) (A:=A) data).
Proof.
  intros w. by destruct (fatal_exits A data w) as (w' & -> & _).
Qed.

Lemma stack_neutral_log (sev : Severity) (data : string) : stack_neutral (OS:=OS) (log sev data).
Proof.
  intros w. destruct sev; cbn; unfold info, verbose, warn, error;
    try destruct (shouldVerbose (self w)); by apply kept_self.
Qed.

Lemma stack_neutral_runCommand (command : string) (b : bool) :
  stack_neutral (OS:=OS) (runCommand command b).
Proof.
  intros w.
  destruct (runCommand_cases command b w) as (w' & es & -> & _ & _ & _ & _ & Hs & _).
  destruct (fst (execSync (os w) command)); [by apply kept_self|].
  destruct b; [by apply kept_self|done].
Qed.

Lemma stack_neutral_run_only (command : string) :
  stack_neutral (OS:=OS) (runCommand command false ;; ret tt).
Proof.
  apply stack_neutral_bind; [apply stack_neutral_runCommand|].
  intros _. apply stack_neutral_ret.
Qed.

Lemma stack_neutral_compile (command source destination : string) :
  stack_neutral (OS:=OS) (compile command source destination).
Proof.
  intros w. unfold compile.
  destruct (negb (existsSync (os w) source)); [apply stack_neutral_fatal|].
  destruct (negb (existsSync (os w) destination)); [apply stack_neutral_run_only|].
  match goal with |- context [if ?c then _ else _] => destruct c end;
    [apply stack_neutral_run_only|apply kept_refl].
Qed.

Lemma stack_neutral_exCall (s : string) (ip : option string) (port : Z) :
  stack_neutral (OS:=OS) (exCall s ip port).
Proof.
  intros w. unfold exCall.
  destruct (negb (allowExternalCommands (self w))); [apply stack_neutral_run_only|].
  destruct (fst (WebSocket_new _ _)); by apply kept_self.
Qed.

Lemma stack_neutral_allowExternal : stack_neutral (OS:=OS) allowExternal.
Proof. intros w. done. Qed.

(** A body without a task call never touches the stack. *)
Lemma exec_task_free (depth : nat) (p : Prog) :
  task_free p -> stack_neutral (OS:=OS) (exec depth p).
Proof.
  induction 1 as [v|e|body onOk onErr _ IHb _ IHok _ IHerr|c b k _ IH
                  |c s d k _ IH|s ip port k _ IH|sev data k _ IH|k _ IH|data];
    rewrite exec_eq.
  - apply stack_neutral_ret.
  - intros w. apply kept_refl.
  - intros w. specialize (IHb w). destruct (exec depth body w) as [v w'|e w'| |]; try done.
    + specialize (IHok v w'). destruct (exec depth (onOk v) w'); eauto using kept_trans.
    + specialize (IHerr e w'). destruct (exec depth (onErr e) w'); eauto using kept_trans.
  - apply stack_neutral_bind; [apply stack_neutral_runCommand|done].
  - apply stack_neutral_bind; [apply stack_neutral_compile|done].
  - apply stack_neutral_bind; [apply stack_neutral_exCall|done].
  - apply stack_neutral_bind; [apply stack_neutral_log|done].
  - apply stack_neutral_bind; [apply stack_neutral_allowExternal|done].
  - apply stack_neutral_fatal.
Qed.

Lemma stack_neutral_balanced {A} (c : M (OS:=OS) A) : stack_neutral c -> balanced c.
Proof.
  intros Hc w _. specialize (Hc w). destruct (c w); try done. by destruct Hc.
Qed.

Lemma balanced_bind {A B} (c : M (OS:=OS) A) (k : A -> M (OS:=OS) B) :
  balanced c -> (forall a, balanced (OS:=OS) (k a)) -> balanced (OS:=OS) (c' <- c ;; k c').
Proof.
  intros Hc Hk w Hw. unfold bind. specialize (Hc w Hw).
  destruct (c w) as [a w'| | |]; try done.
  destruct Hc as [Ht Hst]. specialize (Hk a w'). rewrite Ht in Hk. specialize (Hk Hw).
  destruct (k a w') as [b w''|e w''| |];
    [eapply kept_trans; [|exact Hk]; done | congruence | done | done].
Qed.

Lemma runTask_with_balanced (run : Prog -> M Z) :
  (forall p, no_task_in_try p -> balanced (OS:=OS) (run p)) ->
  forall task args, balanced (OS:=OS) (runTask_with run task args).
Proof.
  intros Hrun task args w Hw.
  destruct (List.find (fun v => String.eqb (name v) task) (tasks (self w)))
    as [t|] eqn:Hfind.
  2:{ unfold runTask_with. rewrite Hfind.
      match goal with |- context [fatal ?d ?x] =>
        by destruct (fatal_exits Z d x) as (w' & -> & _) end. }
  rewrite (runTask_with_found run task args w t Hfind).
  apply find_named in Hfind as [Hin _].
  assert (Hp : no_task_in_try (handler t args)).
  { unfold handlers_no_task_in_try in Hw. rewrite Forall_forall in Hw.
    apply Hw. by apply list_elem_of_In. }
  specialize (Hrun _ Hp (enter t w)). rewrite enter_self in Hrun. cbn in Hrun.
  specialize (Hrun Hw). unfold bind.
  destruct (run (handler t args) (enter t w)) as [resp w1|e w1| |]; try done.
  destruct (leave_returns t resp w1) as (w2 & -> & Hs & _).
  destruct Hrun as [Ht Hst]. rewrite enter_self in Ht, Hst. cbn in Ht, Hst.
  unfold kept. rewrite Hs. cbn. rewrite Ht, Hst, removelast_last. done.
Qed.

Lemma exec_balanced_at (depth : nat) :
  (forall d, depth = S d -> forall task args, balanced (OS:=OS) (runTask_with (exec d) task args)) ->
  forall p, no_task_in_try p -> balanced (OS:=OS) (exec depth p).
Proof.
  intros Hd.
  induction 1 as [v|e|body onOk onErr Hb _ IHok _ IHerr|task args k _ IH|c b k _ IH
                  |c s dst k _ IH|s ip port k _ IH|sev data k _ IH|k _ IH|data];
    rewrite exec_eq.
  - apply stack_neutral_balanced, stack_neutral_ret.
  - by intros w _.
  - intros w Hw. pose proof (exec_task_free depth _ Hb w) as Hbody.
    destruct (exec depth body w) as [v w'|e w'| |]; try done;
      destruct Hbody as [Ht Hst].
    + specialize (IHok v w'). rewrite Ht in IHok. specialize (IHok Hw).
      destruct (exec depth (onOk v) w') as [v' w''|e' w''| |];
        first [done | eapply kept_trans; [|exact IHok]; done | congruence].
    + specialize (IHerr e w'). rewrite Ht in IHerr. specialize (IHerr Hw).
      destruct (exec depth (onErr e) w') as [v' w''|e' w''| |];
        first [done | eapply kept_trans; [|exact IHerr]; done | congruence].
  - destruct depth as [|d]; [by intros w _|].
    apply balanced_bind; [by apply Hd|done].
  - apply balanced_bind; [apply stack_neutral_balanced, stack_neutral_runCommand|done].
  - apply balanced_bind; [apply stack_neutral_balanced, stack_neutral_compile|done].
  - apply balanced_bind; [apply stack_neutral_balanced, stack_neutral_exCall|done].
  - apply balanced_bind; [apply stack_neutral_balanced, stack_neutral_log|done].
  - apply balanced_bind; [apply stack_neutral_balanced, stack_neutral_allowExternal|done].
  - apply stack_neutral_balanced, stack_neutral_fatal.
Qed.

(** Handlers that keep [runTask] out of their [try] blocks keep the stack
    balanced, to any depth. *)
Lemma exec_balanced (depth : nat) :
  forall p, no_task_in_try p -> balanced (OS:=OS) (exec depth p).
Proof.
  induction depth as [|d IHd]; apply exec_balanced_at.
  - done.
  - intros d' [= <-]. by apply runTask_with_balanced.
Qed.

Lemma find_present (ts : list Task) (t : Task) :
  In t ts ->
  exists h, List.find (fun v => String.eqb (name v) (name t)) ts = Some h
            /\ name h = name t.
Proof.
  intros Hin.
  destruct (List.find (fun v => String.eqb (name v) (name t)) ts) as [h|] eqn:Hfind.
  - exists h. split; [done|]. by apply find_named in Hfind as [_ ?].
  - eapply List.find_none in Hfind; [|exact Hin]. by rewrite String.eqb_refl in Hfind.
Qed.

Lemma apply_verbose_kept (parsed : Args) w : kept w (apply_verbose parsed w).
Proof. unfold apply_verbose. by destruct (truthy _). Qed.

Lemma points_eq (depth : nat) (p : Prog) w :
  points depth p w =
  w :: match p with
       | Return _ | Throw _ | CallFatal _ => []
       | TryCatch body onOk onErr =>
           points depth body w
           ++ match exec depth body w with
              | Returned v w' => points depth (onOk v) w'
              | Threw e w' => points depth (onErr e) w'
              | _ => []
              end
       | CallRunTask task args k =>
           match depth with
           | O => []
           | S d =>
               match runTask_with (exec d) task args w with
               | Returned resp w' => points depth (k resp) w'
               | _ => []
               end
           end
       | CallRunCommand command continueIfFailed k =>
           match runCommand command continueIfFailed w with
           | Returned ok w' => points depth (k ok) w'
           | _ => []
           end
       | CallCompile command source destination k =>
           match compile command source destination w with
           | Returned _ w' => points depth k w'
           | _ => []
           end
       | CallExCall s ip port k =>
           match exCall s ip port w with
           | Returned _ w' => points depth k w'
           | _ => []
           end
       | CallLog sev data k =>
           match log sev data w with
           | Returned _ w' => points depth k w'
           | _ => []
           end
       | CallAllowExternal k =>
           match allowExternal w with
           | Returned _ w' => points depth k w'
           | _ => []
           end
       end.
Proof. destruct p; reflexivity. Qed.

(** After a call that leaves the stack alone has returned, the points of
    what follows are as good as the points before. *)
Lemma points_after {A} (c : M (OS:=OS) A) (rest : A -> World OS -> list (World OS))
    w (w' : World OS) :
  stack_neutral (OS:=OS) c ->
  (forall a w1 w2, w2 ∈ rest a w1 -> kept w1 w2) ->
  w' ∈ match c w with Returned a w1 => rest a w1 | _ => [] end ->
  kept w w'.
Proof.
  intros Hc Hrest Hin. specialize (Hc w).
  destruct (c w) as [a w1| | |]; try by apply not_elem_of_nil in Hin.
  eapply kept_trans; [exact Hc|]. by eapply Hrest.
Qed.

(** A body without a task call has the stack it started with at every
    point. *)
Lemma points_task_free (depth : nat) (p : Prog) :
  task_free p -> forall w w', w' ∈ points depth p w -> kept w w'.
Proof.
  induction 1 as [v|e|body onOk onErr Hb IHb _ IHok _ IHerr|c b k _ IH
                  |c s d k _ IH|s ip port k _ IH|sev data k _ IH|k _ IH|data];
    intros w w' Hin; rewrite points_eq in Hin;
    apply elem_of_cons in Hin as [->|Hin]; try apply kept_refl;
    try by apply not_elem_of_nil in Hin.
  - apply elem_of_app in Hin as [Hin|Hin]; [by apply IHb|].
    pose proof (exec_task_free depth _ Hb w) as Hbody.
    destruct (exec depth body w) as [v w1|e w1| |];
      try by apply not_elem_of_nil in Hin.
    + eapply kept_trans; [exact Hbody|]. by eapply IHok.
    + eapply kept_trans; [exact Hbody|]. by eapply IHerr.
  - eapply (points_after (runCommand c b)); [apply stack_neutral_runCommand| |exact Hin].
    intros a w1 w2. apply IH.
  - eapply (points_after (compile c s d) (fun _ => points depth k));
      [apply stack_neutral_compile| |exact Hin].
    intros a w1 w2. apply IH.
  - eapply (points_after (exCall s ip port) (fun _ => points depth k));
      [apply stack_neutral_exCall| |exact Hin].
    intros a w1 w2. apply IH.
  - eapply (points_after (log sev data) (fun _ => points depth k));
      [apply stack_neutral_log| |exact Hin].
    intros a w1 w2. apply IH.
  - eapply (points_after allowExternal (fun _ => points depth k));
      [apply stack_neutral_allowExternal| |exact Hin].
    intros a w1 w2. apply IH.
Qed.

Lemma points_after_balanced {A} (c : M (OS:=OS) A)
    (rest : A -> World OS -> list (World OS)) w (w' : World OS) :
  balanced (OS:=OS) c ->
  handlers_no_task_in_try (tasks (self w)) ->
  (forall a w1 w2, handlers_no_task_in_try (tasks (self w1)) ->
                   w2 ∈ rest a w1 -> kept w1 w2) ->
  w' ∈ match c w with Returned a w1 => rest a w1 | _ => [] end ->
  kept w w'.
Proof.
  intros Hc Hw Hrest Hin. specialize (Hc w Hw).
  destruct (c w) as [a w1| | |]; try by apply not_elem_of_nil in Hin.
  eapply kept_trans; [exact Hc|]. eapply Hrest; [|exact Hin].
  destruct Hc as [-> _]. exact Hw.
Qed.

(** In a registry whose handlers keep [runTask] out of [try], a body that
    does so too has the stack it started with at every point. *)
Lemma points_kept (depth : nat) (p : Prog) :
  no_task_in_try p ->
  forall w w', handlers_no_task_in_try (tasks (self w)) ->
               w' ∈ points depth p w -> kept w w'.
Proof.
  induction 1 as [v|e|body onOk onErr Hb _ IHok _ IHerr|task args k _ IH|c b k _ IH
                  |c s dst k _ IH|s ip port k _ IH|sev data k _ IH|k _ IH|data];
    intros w w' Hw Hin; rewrite points_eq in Hin;
    apply elem_of_cons in Hin as [->|Hin]; try apply kept_refl;
    try by apply not_elem_of_nil in Hin.
  - apply elem_of_app in Hin as [Hin|Hin]; [by eapply points_task_free|].
    pose proof (exec_task_free depth _ Hb w) as Hbody.
    destruct (exec depth body w) as [v w1|e w1| |];
      try by apply not_elem_of_nil in Hin.
    + eapply kept_trans; [exact Hbody|]. eapply IHok; [|exact Hin].
      destruct Hbody as [-> _]. exact Hw.
    + eapply kept_trans; [exact Hbody|]. eapply IHerr; [|exact Hin].
      destruct Hbody as [-> _]. exact Hw.
  - destruct depth as [|d]; [by apply not_elem_of_nil in Hin|].
    eapply (points_after_balanced (runTask_with (exec d) task args)
              (fun resp => points (S d) (k resp))); [|exact Hw| |exact Hin].
    + apply runTask_with_balanced, exec_balanced.
    + intros a w1 w2. apply IH.
  - eapply (points_after_balanced (runCommand c b) (fun ok => points depth (k ok)));
      [apply stack_neutral_balanced, stack_neutral_runCommand|exact Hw| |exact Hin].
    intros a w1 w2. apply IH.
  - eapply (points_after_balanced (compile c s dst) (fun _ => points depth k));
      [apply stack_neutral_balanced, stack_neutral_compile|exact Hw| |exact Hin].
    intros a w1 w2. apply IH.
  - eapply (points_after_balanced (exCall s ip port) (fun _ => points depth k));
      [apply stack_neutral_balanced, stack_neutral_exCall|exact Hw| |exact Hin].
    intros a w1 w2. apply IH.
  - eapply (points_after_balanced (log sev data) (fun _ => points depth k));
      [apply stack_neutral_balanced, stack_neutral_log|exact Hw| |exact Hin].
    intros a w1 w2. apply IH.
  - eapply (points_after_balanced allowExternal (fun _ => points depth k));
      [apply stack_neutral_balanced, stack_neutral_allowExternal|exact Hw| |exact Hin].
    intros a w1 w2. apply IH.
Qed.

(** Inside the handler of a registered task, started by [runTask] from
    [w], the stack is the stack of [w] with the name of the task on top. *)
Lemma points_in_task (depth : nat) (t : Task) (args : Args) w (w' : World OS) :
  handlers_no_task_in_try (tasks (self w)) ->
  In t (tasks (self w)) ->
  w' ∈ points depth (handler t args) (enter t w) ->
  taskStack (self w') = taskStack (self w) ++ [name t].
Proof.
  intros Hw Hin Hpoint.
  assert (Hp : no_task_in_try (handler t args)).
  { unfold handlers_no_task_in_try in Hw. rewrite Forall_forall in Hw.
    apply Hw. by apply list_elem_of_In. }
  destruct (points_kept depth _ Hp (enter t w) w') as [_ Hst]; [|exact Hpoint|].
  - by rewrite enter_self.
  - by rewrite Hst, enter_taskStack.
Qed.

(** C3 as the code has it. When [begin] is called on an empty stack and
    the parser picks a task, the handler that runs is the first registered
    under that name and it starts with the stack holding that name alone,
    in every registry. In a registry where no handler has a call of
    [runTask] inside a [try] block, the stack holds that name alone at
    every point of the handler, the stack is empty again if [begin]
    returns, and a [runTask] that returns leaves the stack as it found
    it. *)
Theorem task_stack_discipline (depth : nat) w :
  (forall argv i parsed t,
      taskStack (self w) = [] ->
      yargs_parseSync argv (commands w) (options w) = YCommand i parsed ->
      tasks (self w) !! i = Some t ->
      exists h,
        List.find (fun v => String.eqb (name v) (name t)) (tasks (self w)) = Some h
        /\ taskStack (self (enter h (apply_verbose parsed w))) = [name t]
        /\ begin depth argv w =
             (runTask depth (name t) parsed ;; ret tt) (apply_verbose parsed w)
        /\ runTask depth (name t) parsed (apply_verbose parsed w) =
             (resp <- exec depth (handler h parsed) ;; leave h resp)
               (enter h (apply_verbose parsed w))
        /\ (handlers_no_task_in_try (tasks (self w)) ->
            (forall w',
                w' ∈ points depth (handler h parsed) (enter h (apply_verbose parsed w)) ->
                taskStack (self w') = [name t])
            /\ (forall w', begin depth argv w = Returned tt w' ->
                           taskStack (self w') = [])))
  /\ (handlers_no_task_in_try (tasks (self w)) ->
      forall task args v w',
        runTask depth task args w = Returned v w' ->
        taskStack (self w') = taskStack (self w)).
Proof.
  assert (Hbal : handlers_no_task_in_try (tasks (self w)) ->
            forall task args w0, kept w w0 ->
            forall v w', runTask depth task args w0 = Returned v w' ->
                         taskStack (self w') = taskStack (self w0)).
  { intros Hw task args w0 [Ht _] v w' Hrun.
    pose proof (runTask_with_balanced (exec depth) (exec_balanced depth) task args w0) as H.
    rewrite Ht in H. specialize (H Hw). unfold runTask in Hrun. rewrite Hrun in H.
    by destruct H. }
  split; [|intros Hw task args v w'; apply (Hbal Hw), kept_refl].
  intros argv i parsed t Hempty Hparse Hi.
  pose proof (apply_verbose_kept parsed w) as [Ht Hst].
  assert (Hin : In t (tasks (self w))).
  { apply list_elem_of_In. apply (list_elem_of_lookup_2 _ i). exact Hi. }
  destruct (find_present (tasks (self w)) t Hin) as (h & Hfind & Hname).
  exists h. split; [done|].
  split; [by rewrite enter_taskStack, Hst, Hempty, Hname|].
  assert (Hbegin : begin depth argv w =
                   (runTask depth (name t) parsed ;; ret tt) (apply_verbose parsed w)).
  { unfold begin. rewrite Hparse. cbn zeta. by rewrite Ht, Hi. }
  split; [done|].
  split; [apply runTask_with_found; by rewrite Ht|].
  intros Hw. split.
  - intros w' Hpoint.
    rewrite (points_in_task depth h parsed (apply_verbose parsed w) w'), Hst, Hempty, Hname;
      [done|by rewrite Ht| |exact Hpoint].
    rewrite Ht. by apply find_named in Hfind as [? _].
  - intros w' Hret. rewrite Hbegin in Hret. unfold bind, ret in Hret.
    destruct (runTask depth (name t) parsed (apply_verbose parsed w)) as [v w1| | |] eqn:Hrun;
      try done.
    injection Hret as <-.
    apply (Hbal Hw) in Hrun; [|apply apply_verbose_kept]. by rewrite Hrun, Hst.
Qed.

(** ** Options *)

Lemma mutate_other (a l : loc) (m : Mutation) w :
  l <> a -> heap (mutate a m w) !! l = heap w !! l.
Proof.
  intros Hne. unfold mutate. cbn [heap].
  destruct (heap w !! a); [|done]. by rewrite lookup_insert_ne.
Qed.

Lemma mutations_other (a l : loc) (ms : list Mutation) w :
  l <> a ->
  heap (fold_left (fun w' m => mutate a m w') ms w) !! l = heap w !! l
  /\ self (fold_left (fun w' m => mutate a m w') ms w) = self w.
Proof.
  intros Hne. revert w. induction ms as [|m ms IH]; intros w; cbn [fold_left]; [done|].
  destruct (IH (mutate a m w)) as [-> ->]. split; [by apply mutate_other|done].
Qed.

(** C9. [addArgument] stores a new object that holds the properties of the
    caller's descriptor; whatever properties the caller then sets on or
    deletes from its own object, the object the registry holds stays as it
    was stored. *)
Theorem addArgument_stores_copy (a : loc) (o : JsObject) w :
  heap w !! a = Some o ->
  exists w1 l,
    addArgument a w = Returned tt w1
    /\ args (self w1) = args (self w) ++ [l]
    /\ l <> a
    /\ heap w1 !! l = Some o
    /\ forall ms : list Mutation,
         let w2 := fold_left (fun w' m => mutate a m w') ms w1 in
         heap w2 !! l = Some o /\ args (self w2) = args (self w1).
Proof.
  intros Ha. unfold addArgument, Object_assign_empty. cbn [fst snd].
  set (l := fresh (dom (heap w))).
  assert (Hl : l <> a).
  { intros Heq. apply (is_fresh (dom (heap w))). fold l. rewrite Heq.
    apply elem_of_dom. by exists o. }
  eexists _, l. split; [reflexivity|]. cbn [self args heap].
  split; [done|]. split; [done|]. rewrite Ha. cbn [default].
  split; [apply lookup_insert_eq|].
  intros ms. cbv zeta.
  match goal with |- context [fold_left ?f ms ?x] =>
    destruct (mutations_other a l ms x Hl) as [-> ->] end.
  cbn [heap self args]. split; [apply lookup_insert_eq|done].
Qed.

(** The copy is shallow: a property of the descriptor that refers to
    another object refers to the same object in the stored copy. *)
Remark addArgument_shares_nested (a r : loc) (o : JsObject) (k : string) w :
  heap w !! a = Some o -> o !! k = Some (JRef r) ->
  exists w1 l o',
    addArgument a w = Returned tt w1 /\ last (args (self w1)) = Some l
    /\ heap w1 !! l = Some o' /\ o' !! k = Some (JRef r).
Proof.
  intros Ha Hk. unfold addArgument, Object_assign_empty. cbn [fst snd].
  eexists _, _, o. split; [reflexivity|]. cbn [self args heap].
  split; [apply last_snoc|]. rewrite Ha. cbn [default].
  split; [apply lookup_insert_eq|done].
Qed.

(** ** [scanDir] *)

Lemma Dirent_nested_ind (P : Dirent -> Prop) :
  (forall n, P (File n)) ->
  (forall n entries, Forall P entries -> P (Dir n entries)) ->
  forall d, P d.
Proof.
  intros HF HD. fix IH 1. intros [n|n entries]; [apply HF|].
  apply HD. induction entries as [|e entries IHes]; constructor; [apply IH|apply IHes].
Qed.

Lemma filter_map_comm {A B} (f : B -> bool) (g : A -> B) (l : list A) :
  List.filter f (map g l) = map g (List.filter (fun x => f (g x)) l).
Proof.
  induction l as [|x l IH]; cbn; [done|]. rewrite IH. by destruct (f (g x)).
Qed.

Lemma skipped_iff (matches ignores : option (string -> bool)) (n : string) :
  skipped matches ignores n = true <->
  (exists re, ignores = Some re /\ re n = true)
  \/ (exists re, matches = Some re /\ re n = false).
Proof.
  unfold skipped. rewrite orb_true_iff. split.
  - intros [H|H]; [left|right].
    + destruct ignores as [re|]; [|done]. by exists re.
    + destruct matches as [re|]; [|done]. exists re. by apply negb_true_iff in H.
  - intros [(re & -> & H)|(re & -> & H)]; [by left|right]. by rewrite H.
Qed.

Section ScanDir.

Variables matches ignores : option (string -> bool).

Lemma scanDir_fold (path : string) (files : list Dirent) :
  Forall (fun d => forall p fnames,
              scanDir_step p matches ignores d fnames
              = fnames ++ map (joined p)
                            (List.filter (selected matches ignores) (files_under d)))
         files ->
  forall fnames,
    fold_left (fun acc f => scanDir_step path matches ignores f acc) files fnames
    = fnames ++ map (joined path)
                  (List.filter (selected matches ignores) (listing files)).
Proof.
  unfold listing.
  induction 1 as [|d files Hd _ IH]; intros fnames; cbn [fold_left flat_map].
  - by rewrite app_nil_r.
  - rewrite IH, Hd, List.filter_app, map_app, app_assoc. done.
Qed.

Lemma scanDir_step_found (d : Dirent) :
  forall p fnames,
    scanDir_step p matches ignores d fnames
    = fnames ++ map (joined p)
                  (List.filter (selected matches ignores) (files_under d)).
Proof.
  induction d as [n|n entries IH] using Dirent_nested_ind; intros p fnames.
  - unfold selected. cbn. destruct (skipped matches ignores n); cbn.
    + by rewrite app_nil_r.
    + done.
  - cbn [scanDir_step files_under]. rewrite (scanDir_fold _ _ IH). cbn [app].
    f_equal. rewrite filter_map_comm, map_map. done.
Qed.

(** [scanDir] gives the files of the listing that are not skipped, each
    by its path joined to the path that was scanned. *)
Lemma scanDir_found (path : string) (files : list Dirent) :
  scanDir path matches ignores files
  = map (joined path) (List.filter (selected matches ignores) (listing files)).
Proof.
  unfold scanDir. rewrite scanDir_fold; [done|].
  apply Forall_forall. intros d _. apply scanDir_step_found.
Qed.

End ScanDir.

(** ** [extension] *)

Lemma index_empty (s : string) : String.index 0 "" s = Some 0%nat.
Proof. by destruct s. Qed.

Lemma substring_none (s : string) : String.substring 0 0 s = "".
Proof. by destruct s. Qed.

Lemma GetSubstitution_plain (matched before after template : string) :
  JsString.plain_template template = true ->
  JsString.GetSubstitution matched before after template = template.
Proof.
  induction template as [|c rest IH]; [done|].
  cbn [JsString.plain_template JsString.GetSubstitution].
  intros [Hc Hrest]%andb_true_iff. specialize (IH Hrest).
  destruct (Ascii.eqb c "$"); [|by rewrite IH].
  destruct rest as [|d rest']; [done|].
  apply negb_true_iff in Hc.
  apply orb_false_iff in Hc as [Hc Hq]. apply orb_false_iff in Hc as [Hc Hb].
  apply orb_false_iff in Hc as [Hd Ha].
  rewrite Hd, Ha, Hb, Hq. by rewrite IH.
Qed.

(** C10 as the code has it. For a file name without extension and a new
    extension in which none of [$$], [$&], [$`] and [$'] occurs,
    [extension] puts the new extension in front of the name: the empty
    extension is found at the start of the name and replaced. *)
Theorem extension_without_extname (f ext : string) :
  path_extname f = "" ->
  ext <> "" ->
  JsString.plain_template ext = true ->
  extension f ext = (ext ++ f)%string.
Proof.
  intros Hext _ Hplain. unfold extension, JsString.replace.
  rewrite Hext, index_empty. cbn [String.length Nat.add].
  rewrite substring_none, Nat.sub_0_r, substring_all.
  rewrite GetSubstitution_plain by done. done.
Qed.

End BuilderTheorems.

(** * Runs *)

Section ConcreteRuns.

Import ScriptedConsole Scripted Runs.

Local Open Scope list_scope.

Example posix_join_ex :
  Posix.join ["."; "a.txt"] = "a.txt" /\ Posix.join ["proj"; "sub"] = "proj/sub"
  /\ Posix.join ["a/"; "../b"; "c"] = "b/c" /\ Posix.join ["/"; ".."] = "/"
  /\ Posix.join [""; ""] = "." /\ Posix.join ["a"; ""; "b/"] = "a/b/".
Proof. vm_compute. repeat split. Qed.

Example posix_extname_ex :
  Posix.extname "index.html" = ".html" /\ Posix.extname "src/a.tar.gz" = ".gz"
  /\ Posix.extname "file" = "" /\ Posix.extname ".bashrc" = ""
  /\ Posix.extname "a.b/" = ".b" /\ Posix.extname ".." = ""
  /\ Posix.extname "dir.d/file" = "" /\ Posix.extname "index." = ".".
Proof. vm_compute. repeat split. Qed.

Example project_tasks :
  tasks (self project) = [all_task; build_task; bad_task; shadowed_task]
  /\ taskStack (self project) = [] /\ allowExternalCommands (self project) = false.
Proof. repeat split. Qed.

(** Witness of C1: of the two tasks named [build], the first is run. *)
Lemma runTask_first_handler_witness :
  tasks (self project) = [all_task] ++ build_task :: [bad_task; shadowed_task]
  /\ exists w2,
      runTask 0 "build" ∅ project = Returned 0 w2
      /\ taskStack (self w2) = [] /\ out w2 = [Exec "true"].
Proof.
  split; [reflexivity|].
  destruct (runTask_first_handler (exec 0) project [all_task]
              [bad_task; shadowed_task] build_task ∅ 0 after_build)
    as [_ (w2 & Hrun & Hs & Hout & _)].
  - reflexivity.
  - repeat constructor. discriminate.
  - vm_compute. reflexivity.
  - exists w2. split; [exact Hrun|]. rewrite Hs, Hout. split; reflexivity.
Defined.

(** Witness of C2. *)
Lemma runTask_unknown_exits_witness :
  exists w',
    runTask 0 "deploy" ∅ project = Exited 1 w'
    /\ out w' = [Stderr (JsString.ESC ++ "[1;95mFATAL" ++ JsString.ESC ++ "[0m("
                         ++ JsString.ESC ++ "[33m*" ++ JsString.ESC
                         ++ "[0m): Failed to run task " ++ JsString.DQ ++ "deploy"
                         ++ JsString.DQ)].
Proof.
  destruct (runTask_unknown_exits (exec 0) project "deploy" ∅) as (w' & Hrun & Hout).
  - repeat constructor; discriminate.
  - exists w'. split; [exact Hrun|]. rewrite Hout. reflexivity.
Defined.

(** C3 fails as stated: [outer] catches what [inner] throws, its handler
    returns, and [runTask] pops the name [inner] left behind instead of
    its own. Where the handler of [outer] goes on after the catch, the
    stack holds both names. *)
Lemma caught_exception_leaves_stack :
  taskStack (self catching) = []
  /\ (exists w',
      runTask 1 "outer" ∅ catching = Returned 0 w'
      /\ begin 1 ["outer"] catching = Returned tt w'
      /\ taskStack (self w') = ["outer"])
  /\ (fun w' => taskStack (self w'))
     <$> last (points 1 (outer_handler ∅) (enter outer_task catching))
     = Some ["outer"; "inner"].
Proof.
  split; [reflexivity|]. split.
  - eexists.
    split; [vm_compute; reflexivity|]. split; [vm_compute; reflexivity|]. reflexivity.
  - vm_compute. reflexivity.
Qed.

(** Witness of C3. *)
Lemma task_stack_discipline_witness :
  handlers_no_task_in_try (tasks (self project))
  /\ exists w',
      begin 1 ["all"; "-v"] project = Returned tt w' /\ taskStack (self w') = []
      /\ Forall (fun w1 => taskStack (self w1) = ["all"])
                (points 1 (all_handler {[ "v" := JBool true ]})
                        (enter all_task (apply_verbose {[ "v" := JBool true ]} project))).
Proof.
  assert (H : handlers_no_task_in_try (tasks (self project))).
  { repeat constructor. }
  split; [exact H|].
  destruct (task_stack_discipline 1 project) as [Hbegin _].
  destruct (Hbegin ["all"; "-v"] 0%nat {[ "v" := JBool true ]} all_task)
    as (h & Hfind & _ & _ & _ & Hgood).
  - reflexivity.
  - vm_compute. reflexivity.
  - reflexivity.
  - injection Hfind as <-. destruct (Hgood H) as [Hpoints Hend].
    destruct (begin 1 ["all"; "-v"] project) as [[] w'| | |] eqn:Hrun;
      try (vm_compute in Hrun; discriminate).
    exists w'. split; [reflexivity|]. split; [by apply Hend|].
    apply Forall_forall. intros w1 Hw1. apply Hpoints. exact Hw1.
Defined.

(** Witness of C4: [a.c] is newer than [a.o] and is compiled, [b.c] is
    older than [b.o] and is not. *)
Lemma compile_runs_when_stale_witness :
  (exists w' es, world_of (compile "cc a.c" "a.c" "a.o" (boot machine)) = Some w'
                 /\ out w' = es /\ execs es = ["cc a.c"])
  /\ compile "cc b.c" "b.c" "b.o" (boot machine) = Returned tt (boot machine).
Proof.
  split.
  - destruct (compile_runs_when_stale "cc a.c" "a.c" "a.o" (boot machine))
      as (w' & es & Hw & Hout & _ & _ & H).
    destruct (H eq_refl eq_refl (Some 5) (Some 3) eq_refl eq_refl) as [Hrun _].
    exists w', es. split; [exact Hw|]. split; [exact Hout|].
    apply Hrun. right. exists 5. split; [reflexivity|]. cbn. lia.
  - destruct (compile_runs_when_stale "cc b.c" "b.c" "b.o" (boot machine))
      as (w' & es & Hw & Hout & _ & _ & H).
    destruct (H eq_refl eq_refl (Some 2) (Some 4) eq_refl eq_refl) as [_ Hskip].
    apply Hskip. intros [?|(s & [= <-] & Hlt)]; [discriminate|]. cbn in Hlt. lia.
Defined.

(** Witness of C5. *)
Lemma server_replies_witness :
  exists w1,
    startExServer 8086 (boot machine) = Returned tt w1
    /\ (exists w' es, deliver 8086 "r::true" w1 = Returned tt w'
                      /\ network es = [WsSend (JNum 0)] /\ out w' = out w1 ++ es)
    /\ (exists w' es, deliver 8086 "r::false" w1 = Returned tt w'
                      /\ network es = [WsSend (JNum 1)] /\ out w' = out w1 ++ es)
    /\ deliver 8086 "hello" w1 = Returned tt w1.
Proof.
  destruct (server_replies 8086 (boot machine)) as (w1 & Hstart & Hport & H).
  destruct (H w1 Hport) as [Hrun Hignore].
  injection Hstart as <-.
  eexists. split; [reflexivity|]. split; [|split].
  - destruct (Hrun "true") as (w' & es & Hd & Hout & _ & Hnet).
    exists w', es. split; [exact Hd|]. split; [exact Hnet|exact Hout].
  - destruct (Hrun "false") as (w' & es & Hd & Hout & _ & Hnet).
    exists w', es. split; [exact Hd|]. split; [exact Hnet|exact Hout].
  - apply Hignore. reflexivity.
Defined.

(** C6 fails as stated: on a fresh builder, [exCall] of a command that
    fails ends the process and does not return. *)
Lemma exCall_local_exits :
  allowExternalCommands (self (boot machine)) = false
  /\ (exists w', exCall "false" None 8086 (boot machine) = Exited 1 w')
  /\ forall w', exCall "false" None 8086 (boot machine) <> Returned tt w'.
Proof.
  split; [reflexivity|]. split.
  - eexists. vm_compute. reflexivity.
  - intros w' H. vm_compute in H. discriminate.
Qed.

(** Witness of C6. *)
Lemma exCall_local_witness :
  allowExternalCommands (self project) = false
  /\ exists w' es,
      exCall "true" None 8086 project = Returned tt w'
      /\ out w' = es /\ execs es = ["true"] /\ network es = [].
Proof.
  split; [reflexivity|].
  destruct (exCall_local "true" None 8086 project eq_refl) as (w' & es & H).
  exists w', es. exact H.
Defined.

(** C7. The code against what is written above [scanDir], an array of
    files relative to the path sent: scanning [proj] gives paths that start
    with [proj], and scanning an absolute path gives absolute paths, where
    the files relative to the path are [a.txt] and [sub/c.txt]. *)
Lemma scanDir_keeps_root :
  scanDir (PM := Posix.posix) "proj" (Some dot_txt) None tree
  = ["proj/a.txt"; "proj/sub/c.txt"]
  /\ scanDir (PM := Posix.posix) "proj" (Some dot_txt) None tree
     <> ["a.txt"; "sub/c.txt"]
  /\ scanDir (PM := Posix.posix) "/srv/proj" (Some dot_txt) None tree
     = ["/srv/proj/a.txt"; "/srv/proj/sub/c.txt"].
Proof.
  split; [vm_compute; reflexivity|]. split; [vm_compute; discriminate|].
  vm_compute. reflexivity.
Qed.

(** What [scanDir] gives. It lists the entries that are not directories,
    of the directory and of every directory below it whatever the
    patterns; a file is left out exactly when its name matches [ignores]
    or fails to match a given [matches]; each path is the scanned path
    joined with the way down to the file. On the tree of [a.txt], [b.log]
    and [sub/c.txt] with the pattern for [.txt], scanning [.] gives
    [a.txt] and [sub/c.txt], and scanning [proj] gives [proj/a.txt] and
    [proj/sub/c.txt]. *)
Theorem scanDir_joined_files :
  (forall (PM : PathModule) (path : string) (matches ignores : option (string -> bool))
          (files : list Dirent),
      scanDir path matches ignores files
      = map (joined path) (List.filter (selected matches ignores) (listing files)))
  /\ (forall (matches ignores : option (string -> bool)) (ds : list string)
             (n : string),
        selected matches ignores (ds, n) = false <->
        (exists re, ignores = Some re /\ re n = true)
        \/ (exists re, matches = Some re /\ re n = false))
  /\ scanDir (PM := Posix.posix) "." (Some dot_txt) None tree = ["a.txt"; "sub/c.txt"]
  /\ scanDir (PM := Posix.posix) "proj" (Some dot_txt) None tree
     = ["proj/a.txt"; "proj/sub/c.txt"].
Proof.
  split; [intros; apply scanDir_found|].
  split.
  { intros matches ignores ds n. unfold selected. cbn [snd].
    rewrite negb_false_iff. apply skipped_iff. }
  split; vm_compute; reflexivity.
Qed.

(** Witness of C8. *)
Lemma runCommand_outcome_witness :
  (exists w', runCommand "true" false (boot machine) = Returned true w')
  /\ (exists w', runCommand "false" true (boot machine) = Returned false w')
  /\ (exists w', runCommand "false" false (boot machine) = Exited 1 w').
Proof.
  split; [|split].
  - destruct (runCommand_outcome "true" false (boot machine)) as (w' & es & H & _).
    by exists w'.
  - destruct (runCommand_outcome "false" true (boot machine)) as (w' & es & H & _).
    by exists w'.
  - destruct (runCommand_outcome "false" false (boot machine)) as (w' & es & H & _).
    by exists w'.
Defined.

(** Witness of C9. *)
Lemma addArgument_stores_copy_witness :
  exists w1 l,
    addArgument 1%positive with_descriptor = Returned tt w1
    /\ args (self w1) = [l]
    /\ heap (mutate 1%positive (DeleteProp "requiresArg")
               (mutate 1%positive (SetProp "name" (JStr "other")) w1)) !! l
       = Some descriptor.
Proof.
  destruct (addArgument_stores_copy 1%positive descriptor with_descriptor)
    as (w1 & l & Hadd & Hargs & _ & _ & Hkeep).
  - reflexivity.
  - exists w1, l. split; [exact Hadd|]. split; [exact Hargs|].
    apply (Hkeep [SetProp "name" (JStr "other"); DeleteProp "requiresArg"]).
Defined.

(** C10 fails as stated: in the extension [$$] the two characters stand
    for one. *)
Lemma extension_dollar :
  path_extname (PathModule := Posix.posix) "file" = ""
  /\ "$$" <> ""
  /\ extension (PM := Posix.posix) "file" "$$" = "$file"
  /\ extension (PM := Posix.posix) "file" "$$" <> ("$$" ++ "file")%string.
Proof.
  split; [reflexivity|]. split; [discriminate|].
  split; [vm_compute; reflexivity|]. vm_compute. discriminate.
Qed.

(** Witness of C10. *)
Lemma extension_without_extname_witness :
  extension (PM := Posix.posix) "file" ".o" = ".ofile".
Proof.
  apply (extension_without_extname (PM := Posix.posix) "file" ".o").
  - reflexivity.
  - discriminate.
  - reflexivity.
Defined.

End ConcreteRuns.

(** * More of the class *)

Section MoreTheorems.

Context {OS : Type} {RT : NodeRuntime OS} {PM : PathModule} {FS : NodeFs OS}
        {CO : Console}.

Notation "x <- c ;; k" := (bind c (fun x => k))
  (at level 100, c at next level, right associativity).
Notation "c ;; k" := (bind c (fun _ => k))
  (at level 100, right associativity).

Implicit Types (w : World OS).

Local Open Scope list_scope.

(** ** Logging *)

Lemma enter_context (t : Task) w : context (enter t w) = name t.
Proof. unfold context. by rewrite enter_taskStack, last_snoc. Qed.

Lemma enter_shouldVerbose (t : Task) w :
  shouldVerbose (self (enter t w)) = shouldVerbose (self w).
Proof. by rewrite enter_self. Qed.

Lemma percent_free_app (s s' : string) :
  percent_free (s ++ s') = percent_free s && percent_free s'.
Proof.
  induction s as [|c s IH]; [done|].
  change (String c s ++ s')%string with (String c (s ++ s')%string).
  cbn [percent_free]. by rewrite IH, andb_assoc.
Qed.

(** The tag is a plain format when the severity and the context are. *)
Lemma tag_percent_free (style label : string) w :
  percent_free style = true -> percent_free label = true ->
  percent_free (context w) = true ->
  percent_free (tag style label w) = true.
Proof.
  intros Hs Hl Hc. unfold tag. rewrite !percent_free_app, Hs, Hl, Hc. reflexivity.
Qed.

(** X1. In a registry whose handlers keep [runTask] out of [try], a line
    that the handler of a task logs, where it starts or after any of its
    calls, carries the name of that task, when that name holds no [%]
    (the tag is the format of the console). [info] and [verbose] print the
    line on the standard output and only in verbose mode; [warn] always
    prints it on the standard output, under the label [VERBOSE] in yellow;
    [error] always prints it on the standard error. None of them changes
    the builder. *)
Theorem log_tagged_with_task (depth : nat) (sev : Severity) (data : string)
    (t : Task) (args : Args) w (w' : World OS) :
  handlers_no_task_in_try (tasks (self w)) ->
  In t (tasks (self w)) ->
  percent_free (name t) = true ->
  w' ∈ points depth (handler t args) (enter t w) ->
  let line := fun style label : string =>
    ((JsString.ESC ++ "[" ++ style ++ "m" ++ label ++ JsString.ESC ++ "[0m("
      ++ JsString.ESC ++ "[33m" ++ name t ++ JsString.ESC ++ "[0m):")
     ++ " " ++ data)%string in
  exists w'',
    log sev data w' = Returned tt w''
    /\ self w'' = self w' /\ os w'' = os w' /\ heap w'' = heap w'
    /\ listening w'' = listening w'
    /\ out w'' = out w' ++
         match sev with
         | Info => if shouldVerbose (self w') then [Stdout (line "1" "INFO")] else []
         | Verbose =>
             if shouldVerbose (self w') then [Stdout (line "1;92" "VERBOSE")] else []
         | Warn => [Stdout (line "1;93" "VERBOSE")]
         | Error => [Stderr (line "1;91" "ERROR")]
         end.
Proof.
  intros Hw Hin Hname Hpoint line. subst line.
  pose proof (points_in_task depth t args w w' Hw Hin Hpoint) as Hst.
  assert (Hctx : context w' = name t).
  { unfold context. by rewrite Hst, last_snoc. }
  assert (Hplain : forall style label,
             percent_free style = true -> percent_free label = true ->
             console_format (tag style label w') data
             = (tag style label w' ++ " " ++ data)%string).
  { intros style label Hs Hl. apply console_format_plain.
    apply tag_percent_free; [done|done|by rewrite Hctx]. }
  destruct sev; cbn [log]; unfold info, verbose, warn, error;
    rewrite Hplain by reflexivity; unfold tag; rewrite Hctx;
    try destruct (shouldVerbose (self w'));
    (eexists; split; [reflexivity|]); cbn [self os heap listening out emit];
    rewrite ?app_nil_r; done.
Qed.

(** X2. In verbose mode and inside a task, [fatal] prints its message, the
    heading of the stack, and then one line for every task of the stack,
    the innermost first and alone in red; otherwise it prints its message
    alone. In both cases the process ends with status 1. *)
Theorem fatal_stack_dump (A : Type) (data : string) w :
  exists w' dump,
    fatal (A:=A) data w = Exited 1 w'
    /\ out w' = out w ++ [Stderr (console_format (tag "1;95" "FATAL" w) data)] ++ dump
    /\ (shouldVerbose (self w) = false \/ taskStack (self w) = [] -> dump = [])
    /\ (shouldVerbose (self w) = true -> taskStack (self w) <> [] ->
        exists lines,
          dump = Stderr " Task stack:" :: lines
          /\ length lines = length (taskStack (self w))
          /\ forall i t,
               rev (taskStack (self w)) !! i = Some t ->
               lines !! i
               = Some (Stderr ("  - " ++ JsString.ESC ++ "["
                               ++ (if Nat.eqb i 0 then "91" else "37") ++ "m"
                               ++ t ++ JsString.ESC ++ "[0m"))).
Proof.
  destruct (fatal_exits A data w) as (w' & Hrun & Hout & _).
  exists w', (fatal_dump w). split; [done|]. split; [done|].
  unfold fatal_dump. split.
  - intros [->| ->]; [by rewrite andb_false_r|done].
  - intros -> Hne. destruct (taskStack (self w)) as [|t0 st] eqn:Hst; [done|].
    cbn [length Nat.ltb Nat.leb andb]. unfold stack_lines.
    eexists. split; [reflexivity|]. split.
    + by rewrite length_imap, length_rev.
    + intros i t Hi. by rewrite list_lookup_imap, Hi.
Qed.

(** ** Tasks *)

(** X3. When a task fails (its handler returns a negative number), the
    error line about it is the last thing [runTask] prints, and the format
    the console is given for it is the tag of the caller, the enclosing
    task or [*], not of the task that failed: the name is popped before the
    line is printed. When the context of the caller holds no [%], the line
    is that tag, a space and the message. Stated for registries whose
    handlers keep [runTask] out of [try]. *)
Theorem failed_task_error_context (depth : nat) w (task : string) (args : Args)
    (t : Task) (v : Z) (w' : World OS) :
  handlers_no_task_in_try (tasks (self w)) ->
  List.find (fun u => String.eqb (name u) task) (tasks (self w)) = Some t ->
  runTask depth task args w = Returned v w' ->
  v < 0 ->
  last (out w')
  = Some (Stderr (console_format (tag "1;91" "ERROR" w)
                    ("Failed task " ++ JsString.DQ ++ name t ++ JsString.DQ)))
  /\ context w' = context w
  /\ (percent_free (context w) = true ->
      last (out w')
      = Some (Stderr (tag "1;91" "ERROR" w ++ " " ++ "Failed task "
                      ++ JsString.DQ ++ name t ++ JsString.DQ))).
Proof.
  intros Hw Hfind Hrun Hneg. unfold runTask in Hrun.
  rewrite (runTask_with_found _ _ _ _ _ Hfind) in Hrun. unfold bind in Hrun.
  apply find_named in Hfind as [Hin _].
  assert (Hp : no_task_in_try (handler t args)).
  { unfold handlers_no_task_in_try in Hw. rewrite Forall_forall in Hw.
    apply Hw. by apply list_elem_of_In. }
  pose proof (exec_balanced depth _ Hp (enter t w)) as Hbal.
  rewrite enter_self in Hbal. cbn [tasks set_taskStack] in Hbal. specialize (Hbal Hw).
  destruct (exec depth (handler t args) (enter t w)) as [resp w1| | |]; try done.
  destruct (leave_returns t resp w1) as (w2 & Hleave & Hs & Hout & _).
  rewrite Hleave in Hrun. injection Hrun as <- <-.
  destruct Hbal as [_ Hst]. rewrite enter_taskStack in Hst.
  assert (Hctx : context w2 = context w).
  { unfold context. rewrite Hs. cbn [taskStack set_taskStack].
    by rewrite Hst, removelast_last. }
  assert (Hlast : last (out w2)
                  = Some (Stderr (console_format (tag "1;91" "ERROR" w)
                            ("Failed task " ++ JsString.DQ ++ name t ++ JsString.DQ)))).
  { rewrite Hout. apply Z.ltb_lt in Hneg. rewrite Hneg, last_snoc.
    unfold tag. by rewrite Hctx. }
  split; [exact Hlast|]. split; [exact Hctx|].
  intros Hplain. rewrite Hlast. rewrite console_format_plain; [done|].
  by apply tag_percent_free.
Qed.

Lemma find_snoc (ts : list Task) (u : Task) (task : string) :
  List.find (fun v => String.eqb (name v) task) (ts ++ [u])
  = match List.find (fun v => String.eqb (name v) task) ts with
    | Some t => Some t
    | None => if String.eqb (name u) task then Some u else None
    end.
Proof.
  induction ts as [|t ts IH]; cbn; [done|].
  by destruct (String.eqb (name t) task).
Qed.

(** X4. After [addTask], every name that had a task still runs the task it
    had, the name just registered included: a second task under a name is
    never reached. A name that had no task runs the handler just
    registered. *)
Theorem addTask_then_runTask (run : Prog -> M Z) w (n d : string) (c : TaskHandler)
    (w1 : World OS) (args : Args) :
  addTask n d c w = Returned tt w1 ->
  (forall task t,
      List.find (fun u => String.eqb (name u) task) (tasks (self w)) = Some t ->
      runTask_with run task args w1
      = (resp <- run (handler t args) ;; leave t resp) (enter t w1))
  /\ (List.find (fun u => String.eqb (name u) n) (tasks (self w)) = None ->
      let t := {| name := n; description := d; handler := c |} in
      runTask_with run n args w1
      = (resp <- run (c args) ;; leave t resp) (enter t w1)).
Proof.
  intros [= <-]. split.
  - intros task t Hfind. apply runTask_with_found. cbn [self with_self tasks].
    by rewrite find_snoc, Hfind.
  - intros Hnone t.
    rewrite (runTask_with_found run n args _ t); [done|].
    cbn [self with_self tasks]. rewrite find_snoc, Hnone. subst t. cbn [name].
    by rewrite String.eqb_refl.
Qed.

(** X5. [begin] turns the verbose mode on when the parsed arguments hold
    a true [v] and never turns it off; the handler it starts is the first
    registered under the name of the chosen command, and the line that
    announces the task, printed in verbose mode only, carries the context
    [begin] was called in. When the parser ends the process, [begin] ends
    with its status and runs nothing. *)
Theorem begin_applies_verbose (depth : nat) (argv : list string) w :
  (forall code, yargs_parseSync argv (commands w) (options w) = YExit code ->
                begin depth argv w = Exited code w)
  /\ (forall i parsed t,
        yargs_parseSync argv (commands w) (options w) = YCommand i parsed ->
        tasks (self w) !! i = Some t ->
        exists h,
          List.find (fun u => String.eqb (name u) (name t)) (tasks (self w)) = Some h
          /\ let w_in := enter h (apply_verbose parsed w) in
             let on := truthy (get_prop parsed "v") || shouldVerbose (self w) in
             shouldVerbose (self w_in) = on
             /\ out w_in
                = out w ++ (if on
                            then [Stdout (console_format (tag "1;92" "VERBOSE" w) ("Starting task "
                                          ++ JsString.ESC ++ "[33m" ++ name t
                                          ++ JsString.ESC ++ "[0m..."))]
                            else [])
             /\ begin depth argv w
                = (x <- (resp <- exec depth (handler h parsed) ;; leave h resp) ;; ret tt)
                    w_in).
Proof.
  split.
  - intros code Hparse. unfold begin. by rewrite Hparse.
  - intros i parsed t Hparse Hi.
    assert (Hin : In t (tasks (self w))).
    { apply list_elem_of_In. apply (list_elem_of_lookup_2 _ i). exact Hi. }
    destruct (find_present (tasks (self w)) t Hin) as (h & Hfind & Hname).
    exists h. split; [done|]. cbv zeta.
    pose proof (apply_verbose_kept parsed w) as [Ht Hst].
    assert (Hv : shouldVerbose (self (apply_verbose parsed w))
                 = truthy (get_prop parsed "v") || shouldVerbose (self w)).
    { unfold apply_verbose. by destruct (truthy (get_prop parsed "v")). }
    assert (Hout : out (apply_verbose parsed w) = out w).
    { unfold apply_verbose. by destruct (truthy (get_prop parsed "v")). }
    split; [by rewrite enter_shouldVerbose|]. split.
    + unfold enter, bind, verbose, push, tag, context. rewrite Hv, Hst, Hname.
      destruct (truthy (get_prop parsed "v") || shouldVerbose (self w));
        cbn [out with_self emit]; rewrite Hout; [done|by rewrite app_nil_r].
    + unfold begin. rewrite Hparse. cbv zeta. rewrite Ht, Hi. unfold bind at 1.
      unfold runTask. rewrite (runTask_with_found _ _ _ _ h); [done|by rewrite Ht].
Qed.

(** ** Commands *)

(** X6. When [runCommand] returns, what it returns tells whether the command
    succeeded, the builder and the heap are as they were, and all it
    printed is the echo of the command, in verbose mode only and before the
    command was run. *)
Theorem runCommand_returns_quietly (command : string) (continueIfFailed b : bool) w
    (w' : World OS) :
  runCommand command continueIfFailed w = Returned b w' ->
  b = fst (execSync (os w) command)
  /\ self w' = self w /\ heap w' = heap w
  /\ os w' = snd (execSync (os w) command)
  /\ out w' = out w ++ (if shouldVerbose (self w)
                        then [Stdout (console_format (tag "1;92" "VERBOSE" w) command)]
                        else [])
                    ++ [Exec command].
Proof.
  unfold runCommand, bind.
  destruct (verbose_returns command w) as (w1 & -> & Hs & Ho & Hh & Hl & Hout).
  rewrite Ho. destruct (execSync (os w) command) as [ok os'] eqn:E. cbn [fst snd].
  destruct ok.
  - intros [= <- <-]. cbn. by rewrite Hs, Hh, Hout, <- app_assoc.
  - destruct continueIfFailed; cbn [negb].
    + intros [= <- <-]. cbn. by rewrite Hs, Hh, Hout, <- app_assoc.
    + match goal with |- context [fatal ?d ?x] =>
        by destruct (fatal_exits bool d x) as (w2 & -> & _) end.
Qed.

(** X7. When [compile] returns, the source exists, and either nothing was
    run because the destination exists and the source has a modification
    time that is not later than that of the destination, or the command was
    run and succeeded. *)
Theorem compile_returns_means_done (command source destination : string) w
    (w' : World OS) :
  compile command source destination w = Returned tt w' ->
  existsSync (os w) source = true
  /\ ((w' = w /\ existsSync (os w) destination = true
       /\ exists s, statSync_mtime (os w) source = Some s
                    /\ s <= getTime_or_0 (statSync_mtime (os w) destination))
      \/ (fst (execSync (os w) command) = true
          /\ os w' = snd (execSync (os w) command) /\ self w' = self w)).
Proof.
  unfold compile.
  destruct (existsSync (os w) source) eqn:Hsrc; cbn [negb].
  2:{ match goal with |- context [fatal ?d ?x] =>
        by destruct (fatal_exits unit d x) as (w2 & -> & _) end. }
  assert (Hrun : (runCommand command false ;; ret tt) w = Returned tt w' ->
                 fst (execSync (os w) command) = true
                 /\ os w' = snd (execSync (os w) command) /\ self w' = self w).
  { unfold bind, ret.
    destruct (runCommand_cases command false w)
      as (w1 & es & -> & _ & _ & _ & Hos & Hself & _).
    destruct (fst (execSync (os w) command)); [|done].
    intros [= <-]. done. }
  intros H. split; [done|].
  destruct (existsSync (os w) destination) eqn:Hdst; cbn [negb] in H; [|right; auto].
  destruct (statSync_mtime (os w) source) as [s|] eqn:Hs.
  - change (getTime_or_0 (Some s)) with s in H.
    rewrite bool_decide_eq_true_2 in H by eauto. cbn [negb orb] in H.
    destruct (getTime_or_0 (statSync_mtime (os w) destination) <? s) eqn:Hlt;
      [right; auto|].
    left. injection H as <-. apply Z.ltb_ge in Hlt. split; [done|]. split; [done|].
    by exists s.
  - rewrite bool_decide_eq_false_2 in H by (intros [? ?]; done). right. auto.
Qed.

(** X8. With both files there, equal modification times do not make
    [compile] run the command, and a destination without a modification
    time counts as the epoch: the command runs exactly when the time of the
    source is above zero. *)
Theorem compile_mtime_edges (command source destination : string) w (t : Z) :
  existsSync (os w) source = true ->
  existsSync (os w) destination = true ->
  statSync_mtime (os w) source = Some t ->
  (statSync_mtime (os w) destination = Some t ->
   compile command source destination w = Returned tt w)
  /\ (statSync_mtime (os w) destination = None ->
      compile command source destination w
      = if 0 <? t then (runCommand command false ;; ret tt) w else Returned tt w).
Proof.
  intros Hsrc Hdst Hs. unfold compile. rewrite Hsrc, Hdst, Hs. cbn [negb].
  rewrite bool_decide_eq_true_2 by eauto. cbn [negb orb].
  split; intros ->; cbn [getTime_or_0 default]; [|done].
  by rewrite Z.ltb_irrefl.
Qed.

(** ** [scanDir] *)

(** X9. [scanDir] works entry by entry: nothing for an empty listing, the
    results of two listings one after the other for their concatenation,
    for a directory the scan of what it holds under the joined path,
    whatever the patterns say of its name, and for a file its joined path
    unless the patterns leave it out. *)
Theorem scanDir_entry_by_entry (path : string) (matches ignores : option (string -> bool)) :
  scanDir path matches ignores [] = []
  /\ (forall files files',
        scanDir path matches ignores (files ++ files')
        = scanDir path matches ignores files ++ scanDir path matches ignores files')
  /\ (forall n entries,
        scanDir path matches ignores [Dir n entries]
        = scanDir (joinPath [path; n]) matches ignores entries)
  /\ (forall n,
        scanDir path matches ignores [File n]
        = if skipped matches ignores n then [] else [joinPath [path; n]]).
Proof.
  split; [done|]. split; [|split].
  - intros files files'. rewrite !scanDir_found. unfold listing.
    by rewrite flat_map_app, List.filter_app, map_app.
  - intros n entries. done.
  - intros n. unfold scanDir. cbn. by destruct (skipped matches ignores n).
Qed.

Lemma filter_sublist {A} (f : A -> bool) (l : list A) : sublist (List.filter f l) l.
Proof.
  induction l as [|x l IH]; cbn; [constructor|].
  destruct (f x); by constructor.
Qed.

(** X10. Patterns only leave files out: what [scanDir] gives with patterns
    is what it gives without, in the same order, less the files left out;
    and without patterns it gives one path for every file of the tree. *)
Theorem scanDir_patterns_only_remove (path : string)
    (matches ignores : option (string -> bool)) (files : list Dirent) :
  sublist (scanDir path matches ignores files) (scanDir path None None files)
  /\ length (scanDir path None None files) = length (listing files).
Proof.
  rewrite !scanDir_found.
  assert (Hall : List.filter (selected None None) (listing files) = listing files).
  { induction (listing files) as [|e l IH]; cbn; [done|]. by rewrite IH. }
  rewrite Hall. split; [|by rewrite length_map].
  apply (fmap_sublist (joined path)). apply filter_sublist.
Qed.

(** ** Remote commands *)

Lemma deliver_cases (port : Z) (msg : string) w :
  port ∈ listening w ->
  exists w' es,
    deliver port msg w = Returned tt w'
    /\ out w' = out w ++ es
    /\ listening w' = listening w
    /\ execs es = (if JsString.startsWith msg "r::" then [JsString.slice 3 msg] else [])
    /\ network es
       = (if JsString.startsWith msg "r::"
          then [WsSend (JNum (if fst (execSync (os w) (JsString.slice 3 msg))
                              then 0 else 1))]
          else []).
Proof.
  intros Hport. unfold deliver. rewrite bool_decide_eq_true_2 by done.
  unfold server_on_message. destruct (JsString.startsWith msg "r::").
  - unfold bind.
    destruct (runCommand_cases (JsString.slice 3 msg) true w)
      as (w' & es & -> & Hout & Hex & Hnet & _ & _ & _ & Hl & _).
    destruct (fst (execSync (os w) (JsString.slice 3 msg)));
      (eexists _, (es ++ [_]); split; [reflexivity|]); cbn;
      rewrite Hout, <- app_assoc, execs_app, network_app, Hex, Hnet; done.
  - exists w, []. by rewrite app_nil_r.
Qed.

(** X11. Whatever messages reach a server, in whatever number, its
    callbacks all return: the commands run are the messages that start
    with [r::], less that prefix, in the order they came, and the server
    sends one status, [0] or [1], for each of them and nothing else. *)
Theorem serve_all_messages (port : Z) (msgs : list string) w :
  port ∈ listening w ->
  exists w' es,
    serve port msgs w = Returned tt w'
    /\ out w' = out w ++ es
    /\ execs es
       = map (JsString.slice 3)
             (List.filter (fun m => JsString.startsWith m "r::") msgs)
    /\ length (network es)
       = length (List.filter (fun m => JsString.startsWith m "r::") msgs)
    /\ Forall (fun e => e = WsSend (JNum 0) \/ e = WsSend (JNum 1)) (network es).
Proof.
  revert w. induction msgs as [|msg msgs IH]; intros w Hport; cbn [serve].
  - exists w, []. by rewrite app_nil_r.
  - unfold bind.
    destruct (deliver_cases port msg w Hport) as (w1 & es1 & -> & Hout1 & Hl & Hex1 & Hnet1).
    destruct (IH w1) as (w2 & es2 & -> & Hout2 & Hex2 & Hlen2 & Hall2);
      [by rewrite Hl|].
    exists w2, (es1 ++ es2). split; [done|].
    split; [by rewrite Hout2, Hout1, app_assoc|].
    rewrite execs_app, network_app, Hex1, Hnet1, Hex2, length_app, Hlen2.
    cbn [List.filter]. destruct (JsString.startsWith msg "r::"); cbn.
    + split; [done|]. split; [done|]. constructor; [|done].
      destruct (fst (execSync (os w) (JsString.slice 3 msg))); auto.
    + done.
Qed.

(** X12. What a client sends reaches the command: when its connection
    opens for [s], [exCall] sends one message and closes the connection at
    once; that message, received by a server, makes the server run exactly
    [s] and send the status of that run, [0] or [1]. *)
Theorem remote_request_runs (s : string) (port : Z) (client server : World OS) :
  port ∈ listening server ->
  exists client1 sent msg,
    exCall_on_open s client = Returned tt client1
    /\ out client1 = out client ++ sent
    /\ network sent = [WsSend (JStr msg); WsClose]
    /\ exists server1 es,
        deliver port msg server = Returned tt server1
        /\ out server1 = out server ++ es
        /\ execs es = [s]
        /\ network es
           = [WsSend (JNum (if fst (execSync (os server) s) then 0 else 1))].
Proof.
  intros Hport. unfold exCall_on_open, bind.
  destruct (verbose_returns ("excall " ++ s) client) as (c1 & -> & _ & _ & _ & _ & Hout).
  eexists _, _, ("r::" ++ s)%string. split; [reflexivity|].
  cbn [out emits]. rewrite Hout, <- app_assoc. split; [reflexivity|].
  split; [rewrite network_app; by destruct (shouldVerbose (self client))|].
  destruct (deliver_cases port ("r::" ++ s) server Hport)
    as (s1 & es & Hd & Hout1 & _ & Hex & Hnet).
  rewrite startsWith_request, slice_request in Hex, Hnet.
  by exists s1, es.
Qed.

(** X13. [allowExternal] sets the flag and nothing else. With the flag
    set, [exCall] never runs the command on this machine and always
    returns, the builder and the heap as they were: it opens a connection
    to the address, [127.0.0.1] when none is given, and that is all that
    can be seen; or, if opening throws, it prints two lines on the standard
    error, the notice and what was thrown. *)
Theorem exCall_remote (s : string) (ip : option string) (port : Z) w :
  (exists w1, allowExternal w = Returned tt w1
              /\ allowExternalCommands (self w1) = true
              /\ tasks (self w1) = tasks (self w)
              /\ args (self w1) = args (self w)
              /\ taskStack (self w1) = taskStack (self w)
              /\ shouldVerbose (self w1) = shouldVerbose (self w)
              /\ heap w1 = heap w /\ os w1 = os w
              /\ listening w1 = listening w /\ out w1 = out w)
  /\ (allowExternalCommands (self w) = true ->
      let url := ("ws://" ++ default "127.0.0.1" ip ++ ":" ++ show_number port)%string in
      exists w' es,
        exCall s ip port w = Returned tt w'
        /\ out w' = out w ++ es
        /\ self w' = self w /\ heap w' = heap w /\ listening w' = listening w
        /\ os w' = snd (WebSocket_new (os w) url)
        /\ es = match fst (WebSocket_new (os w) url) with
                | None => [WsConnect url]
                | Some e =>
                    [Stderr (JsString.ESC ++ "[90m[" ++ JsString.ESC ++ "[31m%"
                             ++ JsString.ESC ++ "[90m]" ++ JsString.ESC
                             ++ "[0m Failed to send");
                     Stderr e]
                end).
Proof.
  split; [by eexists|].
  intros Hflag url. unfold exCall. rewrite Hflag. cbn [negb]. fold url.
  destruct (fst (WebSocket_new (os w) url)); by eexists _, _.
Qed.

(** ** Files and directories *)

(** X14. [copy] always returns: [false] with nothing done when the source
    does not exist; otherwise it asks for the copy once and returns [true],
    or, when the copy throws, prints what was thrown as a warning and
    returns [false]. It never changes the builder. *)
Theorem copy_never_fails (source dest : string) w :
  exists b w',
    copy source dest w = Returned b w'
    /\ self w' = self w
    /\ (existsSync (os w) source = false -> b = false /\ w' = w)
    /\ (existsSync (os w) source = true ->
        os w' = snd (copyFileSync (os w) source dest)
        /\ match fst (copyFileSync (os w) source dest) with
           | None => b = true /\ out w' = out w
           | Some e =>
               b = false
               /\ out w' = out w ++ [Stdout (console_format (tag "1;93" "VERBOSE" w) e)]
           end).
Proof.
  unfold copy. destruct (existsSync (os w) source); cbn [negb].
  - destruct (fst (copyFileSync (os w) source dest)) eqn:E;
      eexists _, _; (split; [reflexivity|]); cbn; rewrite ?E; done.
  - by exists false, w.
Qed.

(** X15. [createDirectory] does nothing when told not to create, and
    nothing when the path exists. On a file system where a directory that
    has been made exists, a second call after a first that returned does
    nothing. *)
Theorem createDirectory_idempotent (path : string) w (w1 : World OS) :
  (forall os', mkdirSync (os w) path = (None, os') -> existsSync os' path = true) ->
  createDirectory path true w = Returned tt w1 ->
  existsSync (os w1) path = true
  /\ createDirectory path true w1 = Returned tt w1
  /\ (existsSync (os w) path = true -> w1 = w)
  /\ createDirectory path false w = Returned tt w.
Proof.
  intros Hlaw. unfold createDirectory. cbn [negb].
  destruct (existsSync (os w) path) eqn:Hex; cbn [negb].
  - intros [= <-]. by rewrite Hex.
  - unfold bind.
    destruct (verbose_returns ("Creating " ++ JsString.ESC ++ "[32m" ++ path
                               ++ JsString.ESC ++ "[0m") w)
      as (w0 & -> & _ & Ho & _).
    unfold fs_call. rewrite Ho.
    destruct (mkdirSync (os w) path) as [[e|] os'] eqn:Hmk; cbn [fst snd]; [done|].
    intros [= <-]. cbn [os with_os]. rewrite (Hlaw os' eq_refl). done.
Qed.

(** X16. [remove] does nothing when the path does not exist. On a file
    system where what has been removed no longer exists, after a [remove]
    that returned the path does not exist and a second [remove] does
    nothing. *)
Theorem remove_idempotent (path : string) w (w1 : World OS) :
  (forall os', rmdirSync (os w) path = (None, os') -> existsSync os' path = false) ->
  (forall os', rmSync (os w) path = (None, os') -> existsSync os' path = false) ->
  remove path w = Returned tt w1 ->
  existsSync (os w1) path = false
  /\ remove path w1 = Returned tt w1
  /\ (existsSync (os w) path = false -> w1 = w).
Proof.
  intros Hdir Hfile. unfold remove.
  destruct (existsSync (os w) path) eqn:Hex.
  - unfold bind.
    destruct (verbose_returns ("Removing " ++ JsString.ESC ++ "[32m" ++ path
                               ++ JsString.ESC ++ "[0m") w)
      as (w0 & -> & _ & Ho & _).
    unfold fs_call. rewrite Ho.
    destruct (isDirectory (os w) path).
    + destruct (rmdirSync (os w) path) as [[e|] os'] eqn:Hrm; cbn [fst snd]; [done|].
      intros [= <-]. cbn [os with_os]. by rewrite (Hdir os' eq_refl).
    + destruct (rmSync (os w) path) as [[e|] os'] eqn:Hrm; cbn [fst snd]; [done|].
      intros [= <-]. cbn [os with_os]. by rewrite (Hfile os' eq_refl).
  - intros [= <-]. by rewrite Hex.
Qed.

(** ** Options *)

(** X17. Every [addArgument] stores its copy at a location that held
    nothing before and that the registry did not list, and leaves every
    other object as it was: the options stored before are untouched, all
    stored options stay allocated, and no two of them are the same object,
    even when one descriptor is registered twice. *)
Theorem addArgument_allocates (a : loc) w :
  (forall l, l ∈ args (self w) -> is_Some (heap w !! l)) ->
  exists w1 l,
    addArgument a w = Returned tt w1
    /\ args (self w1) = args (self w) ++ [l]
    /\ heap w !! l = None
    /\ (l ∉ args (self w))
    /\ (forall l', l' <> l -> heap w1 !! l' = heap w !! l')
    /\ (forall l', l' ∈ args (self w1) -> is_Some (heap w1 !! l'))
    /\ (NoDup (args (self w)) -> NoDup (args (self w1))).
Proof.
  intros Hinv. unfold addArgument, Object_assign_empty. cbn [fst snd].
  set (l := fresh (dom (heap w))).
  assert (Hnone : heap w !! l = None).
  { apply not_elem_of_dom. apply is_fresh. }
  assert (Hnotin : l ∉ args (self w)).
  { intros Hin. apply Hinv in Hin as [o Ho]. congruence. }
  eexists _, l. split; [reflexivity|]. cbn [self args heap].
  split; [done|]. split; [done|]. split; [done|].
  split; [intros l' Hne; by rewrite lookup_insert_ne|]. split.
  - intros l' Hin. apply elem_of_app in Hin as [Hin|Hin].
    + rewrite lookup_insert_ne; [by apply Hinv|]. intros ->. done.
    + apply list_elem_of_singleton in Hin as ->. rewrite lookup_insert_eq. by eexists.
  - intros Hnd. apply NoDup_app. split; [done|]. split; [|apply NoDup_singleton].
    intros x Hx Hx'. apply list_elem_of_singleton in Hx' as ->. done.
Qed.

(** X18. What the parser is given for a registered option is the
    descriptor as it was when it was registered: whatever the caller sets
    on or deletes from its object afterwards, [begin] declares the options
    registered before, unchanged, and then the copy. *)
Theorem options_hold_the_copy (a : loc) (o : JsObject) (ms : list Mutation) w :
  heap w !! a = Some o ->
  (forall l, l ∈ args (self w) -> is_Some (heap w !! l) /\ l <> a) ->
  exists w1,
    addArgument a w = Returned tt w1
    /\ options (fold_left (fun w' m => mutate a m w') ms w1)
       = options w ++ [(get_prop o "name", o)].
Proof.
  intros Ha Hinv. unfold addArgument, Object_assign_empty. cbn [fst snd].
  set (l := fresh (dom (heap w))).
  assert (Hnone : heap w !! l = None).
  { apply not_elem_of_dom. apply is_fresh. }
  assert (Hl : l <> a) by congruence.
  eexists. split; [reflexivity|].
  match goal with |- context [fold_left ?f ms ?x] => set (w1 := x) end.
  unfold options.
  destruct (mutations_other a l ms w1 Hl) as [Hheap ->].
  subst w1. cbn [self args heap] in *. rewrite map_app. cbn [map].
  rewrite Hheap, lookup_insert_eq, Ha. cbn [default]. f_equal.
  apply map_ext_in. intros l' Hin%list_elem_of_In.
  destruct (Hinv l' Hin) as [[o' Ho'] Hne].
  match goal with |- context [fold_left ?f ms ?x] =>
    destruct (mutations_other a l' ms x Hne) as [-> _] end.
  cbn [heap]. rewrite lookup_insert_ne; [done|]. congruence.
Qed.

(** ** [extension] *)

Lemma append_cons (c : ascii) (s s' : string) :
  (String c s ++ s')%string = String c (s ++ s')%string.
Proof. done. Qed.

Lemma substring_prefix_split (s : string) :
  forall m, (m <= String.length s)%nat ->
            s = (String.substring 0 m s
                 ++ String.substring m (String.length s - m) s)%string.
Proof.
  induction s as [|c s IH]; intros [|m] Hm; cbn in *; try lia.
  - done.
  - by rewrite substring_all.
  - rewrite append_cons. f_equal. apply IH. lia.
Qed.

Lemma substring_split (s : string) :
  forall n m, (n + m <= String.length s)%nat ->
              s = (String.substring 0 n s
                   ++ String.substring n m s
                   ++ String.substring (n + m) (String.length s - (n + m)) s)%string.
Proof.
  induction s as [|c s IH]; intros [|n] m Hm.
  - cbn in Hm. assert (m = 0%nat) as -> by lia. done.
  - cbn in Hm. lia.
  - rewrite substring_none. apply (substring_prefix_split (String c s) m). cbn in *. lia.
  - cbn [String.substring String.length Nat.add Nat.sub]. rewrite append_cons. f_equal.
    apply IH. cbn in Hm. lia.
Qed.

Lemma substring_reach (s : string) :
  forall n m, String.length (String.substring n m s) = m -> (0 < m)%nat ->
              (n + m <= String.length s)%nat.
Proof.
  induction s as [|c s IH]; intros n m Hlen Hm.
  - destruct n, m; cbn in Hlen; lia.
  - destruct n as [|n].
    + destruct m as [|m]; [lia|]. cbn in Hlen. injection Hlen as Hlen.
      destruct m as [|m]; [cbn; lia|]. specialize (IH 0%nat (S m) Hlen). cbn in *. lia.
    + cbn in Hlen. specialize (IH n m Hlen Hm). cbn. lia.
Qed.

Lemma replace_plain (s pattern replacement : string) (pos : nat) :
  String.index 0 pattern s = Some pos ->
  JsString.plain_template replacement = true ->
  JsString.replace s pattern replacement
  = (String.substring 0 pos s ++ replacement
     ++ String.substring (pos + String.length pattern)
          (String.length s - (pos + String.length pattern)) s)%string.
Proof.
  intros Hidx Hplain. unfold JsString.replace. rewrite Hidx.
  by rewrite GetSubstitution_plain.
Qed.

(** X19. Replacing the extension of a file name by that same extension
    gives the name back, whenever the extension, read as a replacement
    template, holds none of [$$], [$&], [$`] and [$']. *)
Theorem extension_same (f : string) :
  JsString.plain_template (path_extname f) = true ->
  extension f (path_extname f) = f.
Proof.
  intros Hplain. unfold extension.
  destruct (String.index 0 (path_extname f) f) as [pos|] eqn:Hidx.
  2:{ unfold JsString.replace. by rewrite Hidx. }
  rewrite (replace_plain _ _ _ pos Hidx Hplain).
  pose proof (String.index_correct1 _ _ _ _ Hidx) as Hsub.
  destruct (path_extname f) as [|c e] eqn:He.
  - rewrite index_empty in Hidx. injection Hidx as <-.
    cbn [String.length Nat.add]. by rewrite substring_none, Nat.sub_0_r, substring_all.
  - pose proof (substring_split f pos (String.length (String c e))) as Hsplit.
    rewrite Hsub in Hsplit. symmetry. apply Hsplit.
    apply substring_reach; [by rewrite Hsub|cbn; lia].
Qed.

Lemma length_append (s s' : string) :
  String.length (s ++ s') = (String.length s + String.length s')%nat.
Proof. induction s as [|c s IH]; [done|]. rewrite append_cons. cbn. by rewrite IH. Qed.

Lemma substring_append_l (s s' : string) :
  String.substring 0 (String.length s) (s ++ s') = s.
Proof.
  induction s as [|c s IH]; [apply substring_none|].
  rewrite append_cons. cbn. by rewrite IH.
Qed.

Lemma substring_append_r (s s' : string) :
  String.substring (String.length s) (String.length s') (s ++ s') = s'.
Proof.
  induction s as [|c s IH]; [apply substring_all|].
  rewrite append_cons. cbn. exact IH.
Qed.

Lemma substring_end (s : string) : String.substring (String.length s) 0 s = "".
Proof. induction s as [|c s IH]; [done|]. cbn. exact IH. Qed.

Lemma append_nil_r (s : string) : (s ++ "")%string = s.
Proof. induction s as [|c s IH]; [done|]. rewrite append_cons. by rewrite IH. Qed.

(** X20. For a file name that ends in its extension, the extension being
    not empty and found nowhere earlier in the name, [extension] gives the
    name with the new extension in place of the old, for a new extension
    that holds none of [$$], [$&], [$`] and [$']. *)
Theorem extension_replaces_suffix (stem e ext : string) :
  path_extname (stem ++ e) = e ->
  e <> "" ->
  (forall p, (p < String.length stem)%nat ->
             String.substring p (String.length e) (stem ++ e) <> e) ->
  JsString.plain_template ext = true ->
  extension (stem ++ e) ext = (stem ++ ext)%string.
Proof.
  intros Hext Hne Hfirst Hplain. unfold extension. rewrite Hext.
  assert (Hidx : String.index 0 e (stem ++ e) = Some (String.length stem)).
  { destruct (String.index 0 e (stem ++ e)) as [pos|] eqn:Hidx.
    - f_equal.
      destruct (Nat.lt_trichotomy pos (String.length stem)) as [Hlt|[->|Hgt]]; [|done|].
      + exfalso. apply (Hfirst pos Hlt). by eapply String.index_correct1.
      + exfalso.
        apply (String.index_correct2 _ _ _ _ Hidx (String.length stem)); [lia|done|].
        apply substring_append_r.
    - exfalso.
      apply (String.index_correct3 0 (String.length stem) _ _ Hidx Hne); [lia|].
      apply substring_append_r. }
  rewrite (replace_plain _ _ _ _ Hidx Hplain).
  rewrite substring_append_l, length_append, Nat.sub_diag.
  rewrite <- length_append, substring_end. by rewrite append_nil_r.
Qed.

End MoreTheorems.

(** * More runs *)

Section MoreConcreteRuns.

Import ScriptedConsole Scripted Runs MoreRuns.

Local Open Scope list_scope.

(** Witness of X1: wherever the handler of [all] is at work, before and
    after it has run [build], its warning carries [all]. *)
Lemma log_tagged_with_task_witness :
  Forall (fun w' =>
            exists w'',
              log Warn "careful" w' = Returned tt w''
              /\ last (out w'')
                 = Some (Stdout ((JsString.ESC ++ "[1;93mVERBOSE" ++ JsString.ESC
                                  ++ "[0m(" ++ JsString.ESC ++ "[33mall"
                                  ++ JsString.ESC ++ "[0m):") ++ " careful")))
         (points 1 (all_handler ∅) (enter all_task project))
  /\ length (points 1 (all_handler ∅) (enter all_task project)) = 2%nat.
Proof.
  split; [|vm_compute; reflexivity].
  apply Forall_forall. intros w' Hpoint.
  destruct (log_tagged_with_task 1 Warn "careful" all_task ∅ project w')
    as (w'' & Hlog & _ & _ & _ & _ & Hout).
  - repeat constructor.
  - left. reflexivity.
  - reflexivity.
  - exact Hpoint.
  - exists w''. split; [exact Hlog|]. rewrite Hout, last_snoc. reflexivity.
Defined.

(** Witness of X3: [bad] fails when run from the top, and the line about
    it carries [*]. *)
Lemma failed_task_error_context_witness :
  exists w',
    runTask 0 "bad" ∅ project = Returned (-1) w'
    /\ last (out w')
       = Some (Stderr (tag "1;91" "ERROR" project ++ " " ++ "Failed task "
                       ++ JsString.DQ ++ "bad" ++ JsString.DQ))
    /\ context w' = "*".
Proof.
  exists after_bad.
  assert (Hrun : runTask 0 "bad" ∅ project = Returned (-1) after_bad).
  { vm_compute. reflexivity. }
  split; [exact Hrun|].
  destruct (failed_task_error_context 0 project "bad" ∅ bad_task (-1) after_bad)
    as (_ & Hctx & Hplain).
  - repeat constructor.
  - reflexivity.
  - exact Hrun.
  - lia.
  - split; [apply Hplain; reflexivity|]. rewrite Hctx. reflexivity.
Defined.

(** Witness of X4: a third [build] changes nothing to what [build] runs. *)
Lemma addTask_then_runTask_witness :
  exists w', runTask 0 "build" ∅ reregistered = Returned 0 w' /\ out w' = [Exec "true"].
Proof.
  destruct (addTask_then_runTask (exec 0) project "build" "Again" bad_handler
              reregistered ∅ eq_refl) as [Hold _].
  specialize (Hold "build" build_task eq_refl).
  unfold runTask. rewrite Hold. eexists. split; vm_compute; reflexivity.
Defined.

(** Witness of X5. *)
Lemma begin_applies_verbose_witness :
  begin 1 ["nothing"] project = Exited 1 project
  /\ exists h, List.find (fun u => String.eqb (name u) "all") (tasks (self project)) = Some h
               /\ shouldVerbose (self (enter h (apply_verbose {[ "v" := JBool true ]} project)))
                  = true.
Proof.
  destruct (begin_applies_verbose 1 ["nothing"] project) as [Hexit _].
  split; [apply Hexit; vm_compute; reflexivity|].
  destruct (begin_applies_verbose 1 ["all"; "-v"] project) as [_ Hrun].
  destruct (Hrun 0%nat {[ "v" := JBool true ]} all_task) as (h & Hfind & Hv & _).
  - vm_compute. reflexivity.
  - reflexivity.
  - exists h. split; [exact Hfind|]. rewrite Hv. reflexivity.
Defined.

(** Witness of X6. *)
Lemma runCommand_returns_quietly_witness :
  runCommand "true" false (boot machine) = Returned true after_true
  /\ self after_true = new_Builder /\ out after_true = [Exec "true"].
Proof.
  assert (Hrun : runCommand "true" false (boot machine) = Returned true after_true).
  { vm_compute. reflexivity. }
  split; [exact Hrun|].
  destruct (runCommand_returns_quietly "true" false true (boot machine) after_true Hrun)
    as (_ & Hs & _ & _ & Hout).
  split; [exact Hs|exact Hout].
Defined.

(** Witness of X7. *)
Lemma compile_returns_means_done_witness :
  compile "cc b.c" "b.c" "b.o" (boot machine) = Returned tt (boot machine)
  /\ existsSync machine "b.c" = true.
Proof.
  assert (Hrun : compile "cc b.c" "b.c" "b.o" (boot machine) = Returned tt (boot machine)).
  { vm_compute. reflexivity. }
  split; [exact Hrun|].
  destruct (compile_returns_means_done "cc b.c" "b.c" "b.o" (boot machine) (boot machine) Hrun)
    as [Hsrc _].
  exact Hsrc.
Defined.

(** Witness of X8. *)
Lemma compile_mtime_edges_witness :
  compile "cc e.c" "e.c" "e.o" (boot coarse) = Returned tt (boot coarse)
  /\ exists w', compile "cc f.c" "f.c" "f.o" (boot coarse) = Returned tt w'
                /\ out w' = [Exec "cc f.c"].
Proof.
  split.
  - destruct (compile_mtime_edges "cc e.c" "e.c" "e.o" (boot coarse) 7) as [Hsame _];
      [reflexivity|reflexivity|reflexivity|].
    apply Hsame. reflexivity.
  - destruct (compile_mtime_edges "cc f.c" "f.c" "f.o" (boot coarse) 7) as [_ Hnone];
      [reflexivity|reflexivity|reflexivity|].
    rewrite Hnone by reflexivity. eexists. split; vm_compute; reflexivity.
Defined.

(** Witness of X11. *)
Lemma serve_all_messages_witness :
  exists w' es,
    serve 8086 ["r::true"; "hello"; "r::false"; "r::true"] served = Returned tt w'
    /\ out w' = out served ++ es
    /\ execs es = ["true"; "false"; "true"]
    /\ length (network es) = 3%nat.
Proof.
  destruct (serve_all_messages 8086 ["r::true"; "hello"; "r::false"; "r::true"] served)
    as (w' & es & Hrun & Hout & Hex & Hlen & _).
  - vm_compute. apply list_elem_of_here.
  - exists w', es. split; [exact Hrun|]. split; [exact Hout|].
    split; [exact Hex|exact Hlen].
Defined.

(** Witness of X12. *)
Lemma remote_request_runs_witness :
  exists client1 sent,
    exCall_on_open "false" (boot machine) = Returned tt client1
    /\ out client1 = sent
    /\ network sent = [WsSend (JStr "r::false"); WsClose]
    /\ exists server1 es,
        deliver 8086 "r::false" served = Returned tt server1
        /\ out server1 = out served ++ es
        /\ execs es = ["false"] /\ network es = [WsSend (JNum 1)].
Proof.
  destruct (remote_request_runs "false" 8086 (boot machine) served)
    as (c1 & sent & msg & Hopen & Hout & Hnet & s1 & es & Hd & Hout1 & Hex & Hnet1).
  - vm_compute. apply list_elem_of_here.
  - assert (msg = "r::false") as ->.
    { assert (H : network sent = [WsSend (JStr "r::false"); WsClose]).
      { vm_compute in Hopen. injection Hopen as <-. cbn in Hout. by subst sent. }
      rewrite H in Hnet. by injection Hnet. }
    exists c1, sent. split; [exact Hopen|]. split; [exact Hout|]. split; [exact Hnet|].
    exists s1, es. split; [exact Hd|]. split; [exact Hout1|]. split; [exact Hex|].
    exact Hnet1.
Defined.

(** Witness of X17: the same descriptor registered twice gives two
    objects. *)
Lemma addArgument_allocates_witness :
  exists w1 l1 l2,
    addArgument 1%positive registered = Returned tt w1
    /\ args (self w1) = [l1; l2] /\ l1 <> l2
    /\ heap w1 !! l1 = Some descriptor /\ is_Some (heap w1 !! l2).
Proof.
  assert (Hargs : exists l1, args (self registered) = [l1]
                             /\ heap registered !! l1 = Some descriptor
                             /\ heap registered !! 1%positive = Some descriptor).
  { eexists. split; [vm_compute; reflexivity|]. split; vm_compute; reflexivity. }
  destruct Hargs as (l1 & Hargs & Hl1 & Ha).
  destruct (addArgument_allocates 1%positive registered)
    as (w1 & l2 & Hrun & Hargs1 & Hnone & Hnotin & Hframe & Hinv & _).
  - intros l Hl. rewrite Hargs in Hl. apply list_elem_of_singleton in Hl as ->. eauto.
  - exists w1, l1, l2. split; [exact Hrun|]. rewrite Hargs in Hargs1, Hnotin.
    split; [exact Hargs1|].
    assert (Hne : l1 <> l2).
    { intros ->. apply Hnotin. apply list_elem_of_here. }
    split; [exact Hne|]. split; [by rewrite Hframe|].
    apply Hinv. rewrite Hargs1. apply list_elem_of_further, list_elem_of_here.
Defined.

(** Witness of X18. *)
Lemma options_hold_the_copy_witness :
  exists w1,
    addArgument 1%positive with_descriptor = Returned tt w1
    /\ options (mutate 1%positive (SetProp "name" (JStr "other")) w1)
       = [(JStr "name", descriptor)].
Proof.
  destruct (options_hold_the_copy 1%positive descriptor
              [SetProp "name" (JStr "other")] with_descriptor)
    as (w1 & Hrun & Hopts).
  - reflexivity.
  - intros l Hl. cbn in Hl. by apply not_elem_of_nil in Hl.
  - exists w1. split; [exact Hrun|]. exact Hopts.
Defined.

(** Witness of X19. *)
Lemma extension_same_witness :
  extension (PM := Posix.posix) "main.c" ".c" = "main.c".
Proof.
  apply (extension_same (PM := Posix.posix) "main.c"). reflexivity.
Defined.

(** Witness of X20. *)
Lemma extension_replaces_suffix_witness :
  extension (PM := Posix.posix) "main.c" ".o" = "main.o".
Proof.
  apply (extension_replaces_suffix (PM := Posix.posix) "main" ".c" ".o").
  - reflexivity.
  - discriminate.
  - intros p Hp. do 4 (destruct p as [|p]; [vm_compute; discriminate|]). cbn in Hp. lia.
  - reflexivity.
Defined.

End MoreConcreteRuns.

Section DiskRuns.

Import ScriptedConsole ScriptedFs.

Local Open Scope list_scope.

(** Witness of X15: making [out] twice is making it once. *)
Lemma createDirectory_idempotent_witness :
  exists w1,
    createDirectory "out" true (boot disk) = Returned tt w1
    /\ existsSync (os w1) "out" = true
    /\ createDirectory "out" true w1 = Returned tt w1.
Proof.
  eexists.
  assert (Hrun : createDirectory "out" true (boot disk)
                 = Returned tt _) by (vm_compute; reflexivity).
  split; [exact Hrun|].
  edestruct (createDirectory_idempotent "out" (boot disk)) as (Hex & Hagain & _).
  - intros os' H. injection H as <-. reflexivity.
  - exact Hrun.
  - split; [exact Hex|exact Hagain].
Defined.

(** Witness of X16: removing [build] removes what is below it, once. *)
Lemma remove_idempotent_witness :
  exists w1,
    remove "build" (boot disk) = Returned tt w1
    /\ entries (os w1) = [("main.c", false)]
    /\ remove "build" w1 = Returned tt w1.
Proof.
  eexists.
  assert (Hrun : remove "build" (boot disk) = Returned tt _)
    by (vm_compute; reflexivity).
  split; [exact Hrun|].
  edestruct (remove_idempotent "build" (boot disk)) as (_ & Hagain & _).
  - intros os' H. injection H as <-. reflexivity.
  - intros os' H. discriminate H.
  - exact Hrun.
  - split; [reflexivity|exact Hagain].
Defined.

End DiskRuns.
